(** * An emergency-department dashboard: filtering, statistics, CRUD sync

    Shallow embedding of the record filter ([DataTable.tsx],
    [ReportsPanel]), the derived statistics ([DashboardPanel],
    [ReportsPanel]) and the CRUD handlers of [DataTable.tsx]. *)

From Stdlib Require Import String Ascii List ZArith NArith Bool Lia.
From Stdlib Require Import SpecFloat.
From stdpp Require Import base gmap strings list pretty.

Local Open Scope string_scope.

(** ** JavaScript strings

    A string is a sequence of code units; the model keeps the code units
    below 256 (Latin-1), one [ascii] each.  Relational operators on two
    strings compare code units lexicographically. *)

Definition truthy (s : string) : bool := negb (s =? EmptyString)%string.

Definition js_lt (a b : string) : bool := String.ltb a b.
Definition js_gt (a b : string) : bool := String.ltb b a.
(** [a >= b] is [!(a < b)] and [a <= b] is [!(b < a)]. *)
Definition js_ge (a b : string) : bool := negb (String.ltb a b).
Definition js_le (a b : string) : bool := negb (String.ltb b a).

(** [String.prototype.toLowerCase] on Latin-1: A-Z and the accented capitals
    U+00C0..U+00DE (U+00D7, the multiplication sign, excepted) move up by 32. *)
Definition is_upper (c : ascii) : bool :=
  let n := N_of_ascii c in
  ((65 <=? n) && (n <=? 90) || (192 <=? n) && (n <=? 222) && negb (n =? 215))%N.

Definition lower_char (c : ascii) : ascii :=
  if is_upper c then ascii_of_N (N_of_ascii c + 32) else c.

Fixpoint toLowerCase (s : string) : string :=
  match s with
  | EmptyString => EmptyString
  | String c s' => String (lower_char c) (toLowerCase s')
  end.

(** [s.includes(sub)]: [sub] starts at some position of [s]. *)
Fixpoint includes (s sub : string) : bool :=
  String.prefix sub s
  || match s with
     | EmptyString => false
     | String _ s' => includes s' sub
     end.

(** ** The data model ([types.ts]) *)

Record PatientRecord := mkPatient {
  id : string;
  no : Z;
  tanggal : string;
  noKib : string;
  namaPasien : string;
  prioritas : string;
  jamDatang : string;
  jamDokter : string;
  dpjp : string;
  dokterSpesialis : string;
  jamKonsul : string;
  jamRespon : string;
  jamResponSpesialis : string;
  ket : string;
  ruangan : string;
  masalah : string
}.

#[global] Instance PatientRecord_eq_dec : EqDecision PatientRecord.
Proof. solve_decision. Defined.

(** [{...item, id: newId}] *)
Definition with_id (item : PatientRecord) (newId : string) : PatientRecord :=
  mkPatient newId (no item) (tanggal item) (noKib item) (namaPasien item)
    (prioritas item) (jamDatang item) (jamDokter item) (dpjp item)
    (dokterSpesialis item) (jamKonsul item) (jamRespon item)
    (jamResponSpesialis item) (ket item) (ruangan item) (masalah item).

(** ** The filter engine *)

(** *** Data-table view: [filteredData] of [DataTable.tsx] *)

Definition matchesSearch_table (searchTerm : string) (item : PatientRecord) : bool :=
  includes (toLowerCase (namaPasien item)) (toLowerCase searchTerm)
  || includes (toLowerCase (noKib item)) (toLowerCase searchTerm)
  || includes (toLowerCase (dpjp item)) (toLowerCase searchTerm).

Definition matchesDate_table (startDate endDate : string) (item : PatientRecord) : bool :=
  let matchesDate := true in
  if truthy startDate || truthy endDate then
    let itemDate := tanggal item in
    let matchesDate :=
      if truthy startDate && js_lt itemDate startDate then false else matchesDate in
    let matchesDate :=
      if truthy endDate && js_gt itemDate endDate then false else matchesDate in
    matchesDate
  else matchesDate.

Definition filteredData (data : list PatientRecord)
    (searchTerm startDate endDate : string) : list PatientRecord :=
  List.filter
    (fun item => matchesSearch_table searchTerm item
                 && matchesDate_table startDate endDate item)
    data.

(** *** Reports view: [filteredPatients] of [ReportsPanel] *)

Definition matchesSearch_report (searchTerm : string) (p : PatientRecord) : bool :=
  if truthy searchTerm
  then includes (toLowerCase (namaPasien p)) (toLowerCase searchTerm)
       || includes (noKib p) searchTerm
  else true.

Definition filteredPatients (patients : list PatientRecord)
    (startDate endDate searchTerm : string) : list PatientRecord :=
  List.filter
    (fun p =>
       let matchesStartDate := if truthy startDate then js_ge (tanggal p) startDate else true in
       let matchesEndDate := if truthy endDate then js_le (tanggal p) endDate else true in
       let matchesSearch := matchesSearch_report searchTerm p in
       matchesStartDate && matchesEndDate && matchesSearch)
    patients.

(** *** The contract of the filter, in the words of the specification *)

(** Lexicographic order on strings. *)
Definition str_le (a b : string) : Prop := String.leb a b = true.

(** A date bound is absent when its input is the empty string (the state
    the inputs start in); an absent bound constrains nothing. *)
Definition within_dates (startDate endDate : string) (p : PatientRecord) : Prop :=
  (startDate <> EmptyString -> str_le startDate (tanggal p))
  /\ (endDate <> EmptyString -> str_le (tanggal p) endDate).

(** [exact_subseq P l r]: [r] consists of exactly the elements of [l] that
    satisfy [P], each kept where it stood relative to the others. *)
Inductive exact_subseq {A : Type} (P : A -> Prop) : list A -> list A -> Prop :=
| es_nil : exact_subseq P [] []
| es_keep x l r : P x -> exact_subseq P l r -> exact_subseq P (x :: l) (x :: r)
| es_drop x l r : ~ P x -> exact_subseq P l r -> exact_subseq P (x :: l) r.

(** [sub] occurs in [s]. *)
Definition substring_of (sub s : string) : Prop :=
  exists pre post, s = pre ++ sub ++ post.

(** Case-insensitive substring match of a query against one field. *)
Definition ci_match (query field : string) : Prop :=
  substring_of (toLowerCase query) (toLowerCase field).

(** The free-text criterion as each call site applies it. *)
Definition text_criterion_table (query : string) (p : PatientRecord) : Prop :=
  ci_match query (namaPasien p) \/ ci_match query (noKib p) \/ ci_match query (dpjp p).

Definition text_criterion_report (query : string) (p : PatientRecord) : Prop :=
  query = EmptyString \/ ci_match query (namaPasien p) \/ substring_of query (noKib p).

(** A record used in the examples. *)
Definition budi : PatientRecord :=
  mkPatient "id-1" 1 "2024-01-07" "RM-001" "Budi Santoso" "P1" "14:30" "14:40"
    "dr. Sari" "-" "-" "14:35" "-" "Rawat Inap" "Melati" EmptyString.

(** ** Derived statistics ([DashboardPanel] and [ReportsPanel])

    Both panels compute the same statistics; the dashboard over
    [data.patients], the reports view over [filteredPatients]. *)

(** A chart entry [{ name, value }]. *)
Record ChartDataPoint (V : Type) := mkPoint { name : string; value : V }.
Arguments mkPoint {V} _ _.
Arguments name {V} _.
Arguments value {V} _.

(** *** Priority counts *)

Definition priorities : list string := ["P1"; "P2"; "P3"; "P4"; "P5"].

Definition priorityData (patients : list PatientRecord) : list (ChartDataPoint nat) :=
  map (fun p => mkPoint p (length (List.filter (fun pt => (prioritas pt =? p)%string) patients)))
      priorities.

(** *** Disposition counts

    [statusCounts] is a plain object literal used as a dictionary, so a read
    of a key it does not own falls through to [Object.prototype].  The values
    it can come to hold are numbers and, after such a read, strings. *)

Inductive jsval :=
| VNum (n : nat)
    (** a count *)
| VText (member : string) (ones : nat)
    (** the text that the inherited member [Object.prototype[member]]
        coerces to, followed by [ones] characters [1] *).

#[global] Instance jsval_eq_dec : EqDecision jsval.
Proof. solve_decision. Defined.

Definition Object_prototype_members : list string :=
  [ "constructor"; "hasOwnProperty"; "isPrototypeOf"; "propertyIsEnumerable";
    "toLocaleString"; "toString"; "valueOf"; "__proto__";
    "__defineGetter__"; "__defineSetter__"; "__lookupGetter__"; "__lookupSetter__" ].

Definition inherited (key : string) : bool :=
  existsb (String.eqb key) Object_prototype_members.

(** [(statusCounts[key] || 0) + 1].  An own count [n] gives [n + 1]; a key that
    is absent everywhere reads [undefined], so the result is [0 + 1]; an
    inherited member is an object, which is truthy, and [+ 1] appends the
    character [1] to its text; so does [+ 1] on a string already stored.
    [__proto__] is never an own key: it always reads the prototype. *)
Definition next_count (statusCounts : gmap string jsval) (key : string) : jsval :=
  if (key =? "__proto__")%string then VText key 1
  else match statusCounts !! key with
       | Some (VNum n) => VNum (n + 1)
       | Some (VText m k) => VText m (k + 1)
       | None => if inherited key then VText key 1 else VNum 1
       end.

(** [statusCounts[key] = v].  Assigning a primitive to [__proto__] runs the
    inherited setter, which ignores it; any other key becomes an own
    property. *)
Definition assign (statusCounts : gmap string jsval) (key : string) (v : jsval)
    : gmap string jsval :=
  if (key =? "__proto__")%string then statusCounts else <[key := v]> statusCounts.

Definition statusCounts (patients : list PatientRecord) : gmap string jsval :=
  fold_left (fun counts p => assign counts (ket p) (next_count counts (ket p)))
            patients ∅.

(** [Object.keys(statusCounts).map(...)].  The order in which [Object.keys]
    lists the keys is not represented: the entries come in the order of the
    finite map. *)
Definition statusData (patients : list PatientRecord) : list (ChartDataPoint jsval) :=
  (fun kv => mkPoint kv.1 kv.2) <$> map_to_list (statusCounts patients).

(** The number a chart entry contributes to a total: its count, when it is one. *)
Definition count_of (v : jsval) : nat :=
  match v with VNum n => n | VText _ _ => 0 end.

(** A disposition observed in the collection. *)
Definition observed (patients : list PatientRecord) (k : string) : Prop :=
  exists p, p ∈ patients /\ ket p = k.

(** The total of the disposition counts. *)
Definition status_total (patients : list PatientRecord) : nat :=
  sum_list_with (fun pt => count_of (value pt)) (statusData patients).

(** The total of the five priority counts. *)
Definition priority_total (patients : list PatientRecord) : nat :=
  sum_list_with value (priorityData patients).

Definition in_priorities (p : PatientRecord) : bool :=
  existsb (String.eqb (prioritas p)) priorities.

(** *** Hour-of-day histogram *)

(** A cell of [timeBins] holds a number; [None] in the array is a hole. *)
Inductive jsnum := JNum (n : nat) | JNaN.

#[global] Instance jsnum_eq_dec : EqDecision jsnum.
Proof. solve_decision. Defined.

(** [s.split(':')[0]] *)
Fixpoint before_colon (s : string) : string :=
  match s with
  | EmptyString => EmptyString
  | String c s' => if (c =? ":")%char then EmptyString else String c (before_colon s')
  end.

(** White space that [parseInt] skips, among the Latin-1 code units. *)
Definition is_space (c : ascii) : bool :=
  let n := N_of_ascii c in
  ((9 <=? n) && (n <=? 13) || (n =? 32) || (n =? 160))%N.

Fixpoint skip_spaces (s : string) : string :=
  match s with
  | String c s' => if is_space c then skip_spaces s' else s
  | EmptyString => EmptyString
  end.

Definition digit_value (c : ascii) : option Z :=
  let n := Z.of_N (N_of_ascii c) in
  if ((48 <=? n) && (n <=? 57))%Z then Some (n - 48)%Z
  else if ((97 <=? n) && (n <=? 122))%Z then Some (n - 87)%Z
  else if ((65 <=? n) && (n <=? 90))%Z then Some (n - 55)%Z
  else None.

(** The value of the longest prefix of digits of the radix; [None] when the
    string starts with no such digit. *)
Fixpoint parse_digits (radix : Z) (acc : option Z) (s : string) : option Z :=
  match s with
  | EmptyString => acc
  | String c s' =>
      match digit_value c with
      | Some d => if (d <? radix)%Z
                  then parse_digits radix (Some (default 0 acc * radix + d)%Z) s'
                  else acc
      | None => acc
      end
  end.

(** [parseInt(s)] without a radix; [None] is [NaN].  The result is the
    integer that was read: from [2^53] on the number [parseInt] returns is
    that integer rounded, which stays far above every array index. *)
Definition parseInt (s : string) : option Z :=
  let s := skip_spaces s in
  let '(negative, s) :=
    match s with
    | String "-" r => (true, r)
    | String "+" r => (false, r)
    | _ => (false, s)
    end in
  let '(radix, s) :=
    match s with
    | String "0" (String "x" r) => (16%Z, r)
    | String "0" (String "X" r) => (16%Z, r)
    | _ => (10%Z, s)
    end in
  (fun n : Z => if negative then (- n)%Z else n) <$> parse_digits radix None s.

(** [timeBins[hour]++] on a number cell, an [undefined] read, or [NaN]. *)
Definition incr (c : option jsnum) : jsnum :=
  match c with
  | Some (JNum n) => JNum (n + 1)
  | Some JNaN | None => JNaN
  end.

(** [timeBins[hour]++].  An integer from 0 to [2^32 - 2] is an array index:
    inside the array the cell is incremented, beyond its end the array grows,
    with holes, up to the new cell, which reads [undefined] and becomes [NaN].
    Any other key is an ordinary property and leaves the elements alone. *)
Definition timeBins_incr (timeBins : list (option jsnum)) (hour : Z)
    : list (option jsnum) :=
  if ((0 <=? hour) && (hour <? 2 ^ 32 - 1))%Z then
    let i := Z.to_nat hour in
    if (i <? length timeBins)%nat
    then <[i := Some (incr (mjoin (timeBins !! i)))]> timeBins
    else timeBins ++ replicate (i - length timeBins) None ++ [Some JNaN]
  else timeBins.

Definition timeBins_step (timeBins : list (option jsnum)) (p : PatientRecord)
    : list (option jsnum) :=
  if truthy (jamDatang p) && negb (jamDatang p =? "-")%string then
    match parseInt (before_colon (jamDatang p)) with
    | Some hour => timeBins_incr timeBins hour
    | None => timeBins
    end
  else timeBins.

Definition timeBins (patients : list PatientRecord) : list (option jsnum) :=
  fold_left timeBins_step patients (replicate 24 (Some (JNum 0))).

(** A point of the arrival chart, [{ name, pasien }]. *)
Module Trend.
Record Point := mk { name : string; pasien : jsnum }.
End Trend.

(** [Array.prototype.filter] with the index, over an array with holes:
    holes are skipped. *)
Fixpoint filter_index {A : Type} (keep : nat -> bool) (i : nat) (l : list (option A))
    : list A :=
  match l with
  | [] => []
  | Some x :: l' => if keep i then x :: filter_index keep (S i) l'
                    else filter_index keep (S i) l'
  | None :: l' => filter_index keep (S i) l'
  end.

(** [timeBins.map((count, hour) => ...).filter((_, i) => i >= 6 && i <= 22)];
    [map] keeps the holes. *)
Definition arrivalTrendData (patients : list PatientRecord) : list Trend.Point :=
  filter_index (fun i => (6 <=? i)%nat && (i <=? 22)%nat) 0
    (imap (fun hour cell =>
             (fun count => Trend.mk (pretty hour ++ ":00") count) <$> cell)
          (timeBins patients)).

(** The hour in which a record is counted, if any. *)
Definition arrival_hour (p : PatientRecord) : option Z :=
  if truthy (jamDatang p) && negb (jamDatang p =? "-")%string
  then parseInt (before_colon (jamDatang p))
  else None.

(** The number of records of a collection counted in hour [h]. *)
Definition hour_count (patients : list PatientRecord) (h : nat) : nat :=
  length (List.filter (fun p => bool_decide (arrival_hour p = Some (Z.of_nat h))) patients).

(** The first 24 cells of [bins] hold the counts [c]. *)
Definition bins_hold (bins : list (option jsnum)) (c : nat -> nat) : Prop :=
  24 <= length bins /\ forall h, h < 24 -> bins !! h = Some (Some (JNum (c h))).

(** The window of the chart: hours 6 to 22. *)
Definition window : list nat := seq 6 17.

(** [{...p, jamDatang: t}] *)
Definition with_jamDatang (p : PatientRecord) (t : string) : PatientRecord :=
  mkPatient (id p) (no p) (tanggal p) (noKib p) (namaPasien p)
    (prioritas p) t (jamDokter p) (dpjp p)
    (dokterSpesialis p) (jamKonsul p) (jamRespon p)
    (jamResponSpesialis p) (ket p) (ruangan p) (masalah p).

(** [{...p, ket: k}] *)
Definition with_ket (p : PatientRecord) (k : string) : PatientRecord :=
  mkPatient (id p) (no p) (tanggal p) (noKib p) (namaPasien p)
    (prioritas p) (jamDatang p) (jamDokter p) (dpjp p)
    (dokterSpesialis p) (jamKonsul p) (jamRespon p)
    (jamResponSpesialis p) k (ruangan p) (masalah p).

(** *** The inpatient share ([DashboardPanel])

    A Number is an IEEE 754 binary64 value; [/] and [*] are the division and
    the multiplication of that format, rounding to nearest, ties to even. *)









(** ** The CRUD orchestrator ([DataTable.tsx])

    The handlers await calls to the record store client
    ([services/googleSheets]), which is outside this development: its three
    operations are parameters, each a transition of an arbitrary remote
    state that either resolves with a value or rejects. *)

Inductive outcome (A : Type) := Resolved (a : A) | Rejected.
Arguments Resolved {A} _.
Arguments Rejected {A}.

(** What a handler does that can be seen from outside, oldest first: the
    remote calls with what they came back with, the collection handed to
    [onUpdate], the messages handed to [onNotification] and [alert], and the
    errors logged in the [catch] blocks. *)
Inductive Event :=
| RemoteDelete (target : string) (result : outcome unit)
| RemoteUpdate (record : PatientRecord) (result : outcome bool)
| RemoteCreate (record : PatientRecord) (result : outcome (option string))
| OnUpdate (newData : list PatientRecord)
| Notify (msg : string)
| Alert (msg : string)
| ConsoleError.

(** The remote store, the collection [App] holds ([patientData], the [data]
    prop of the table), and the state of the table component. *)
Record World (Remote : Type) := mkWorld {
  remote : Remote;
  patientData : list PatientRecord;
  selectedIds : gset string;
  isFormOpen : bool;
  editingItem : option PatientRecord;
  trace : list Event
}.
Arguments mkWorld {Remote} _ _ _ _ _ _.
Arguments remote {Remote} _.
Arguments patientData {Remote} _.
Arguments selectedIds {Remote} _.
Arguments isFormOpen {Remote} _.
Arguments editingItem {Remote} _.
Arguments trace {Remote} _.

(** A handler: a transition of the world that returns or throws. *)
Definition M (Remote A : Type) : Type := World Remote -> outcome A * World Remote.

Definition ret {Remote A : Type} (a : A) : M Remote A := fun w => (Resolved a, w).

Definition bind {Remote A B : Type} (c : M Remote A) (k : A -> M Remote B) : M Remote B :=
  fun w => match c w with
           | (Resolved a, w') => k a w'
           | (Rejected, w') => (Rejected, w')
           end.

(** [try { body } catch { handler }] *)
Definition try_catch {Remote A : Type} (body handler : M Remote A) : M Remote A :=
  fun w => match body w with
           | (Resolved a, w') => (Resolved a, w')
           | (Rejected, w') => handler w'
           end.

Declare Scope handler_scope.
Delimit Scope handler_scope with handler.
Notation "x <- c ;; k" := (bind c (fun x => k))
  (at level 100, c at next level, right associativity) : handler_scope.
Notation "c ;; k" := (bind c (fun _ => k))
  (at level 100, right associativity) : handler_scope.

Definition emit {Remote : Type} (e : Event) : M Remote unit :=
  fun w => (Resolved tt,
            mkWorld (remote w) (patientData w) (selectedIds w) (isFormOpen w)
                    (editingItem w) (trace w ++ [e])).

(** [onUpdate(newData)]: [App] stores the new collection. *)
Definition onUpdate {Remote : Type} (newData : list PatientRecord) : M Remote unit :=
  fun w => (Resolved tt,
            mkWorld (remote w) newData (selectedIds w) (isFormOpen w)
                    (editingItem w) (trace w ++ [OnUpdate newData])).

Definition onNotification {Remote : Type} (msg : string) : M Remote unit :=
  emit (Notify msg).

Definition setSelectedIds {Remote : Type} (ids : gset string) : M Remote unit :=
  fun w => (Resolved tt,
            mkWorld (remote w) (patientData w) ids (isFormOpen w)
                    (editingItem w) (trace w)).

Definition setIsFormOpen {Remote : Type} (b : bool) : M Remote unit :=
  fun w => (Resolved tt,
            mkWorld (remote w) (patientData w) (selectedIds w) b
                    (editingItem w) (trace w)).

Definition setEditingItem {Remote : Type} (item : option PatientRecord) : M Remote unit :=
  fun w => (Resolved tt,
            mkWorld (remote w) (patientData w) (selectedIds w) (isFormOpen w)
                    item (trace w)).

(** An awaited call to the store: the remote state moves, the call and its
    result are recorded, and a rejection is thrown at the [await]. *)
Definition await {Remote A : Type} (call : Remote -> outcome A * Remote)
    (event : outcome A -> Event) : M Remote A :=
  fun w => let '(result, remote') := call (remote w) in
           (result,
            mkWorld remote' (patientData w) (selectedIds w) (isFormOpen w)
                    (editingItem w) (trace w ++ [event result])).

(** [if (newId)]: an identity is a non-empty string. *)
Definition truthy_id (newId : option string) : bool :=
  match newId with
  | Some s => truthy s
  | None => false
  end.

Section CrudOrchestrator.

Local Open Scope handler_scope.

Context {Remote : Type}.
Variable deletePatientFromDB : string -> Remote -> outcome unit * Remote.
Variable updatePatientInDB : PatientRecord -> Remote -> outcome bool * Remote.
Variable addPatientToDB : PatientRecord -> Remote -> outcome (option string) * Remote.

(** [handleDelete(id)]: [target] is its [id] argument and [confirmed] the
    answer to the [confirm] prompt.  [onNotification] is an optional prop;
    [App] supplies it. *)
Definition handleDelete (confirmed : bool) (target : string) : M Remote unit :=
  fun w =>
    let data := patientData w in
    let selected := selectedIds w in
    (if confirmed then
       try_catch
         (await (deletePatientFromDB target) (RemoteDelete target) ;;
          let newData := List.filter (fun item => negb (id item =? target)%string) data in
          onUpdate newData ;;
          (if bool_decide (target ∈ selected)
           then setSelectedIds (selected ∖ {[target]})
           else ret tt) ;;
          onNotification "Data pasien berhasil dihapus.")
         (emit ConsoleError ;;
          onNotification "Gagal menghapus data.")
     else ret tt) w.

(** [handleSaveForm(record)] *)
Definition handleSaveForm (record : PatientRecord) : M Remote unit :=
  fun w =>
    let data := patientData w in
    try_catch
      ((match editingItem w with
        | Some _ =>
            await (updatePatientInDB record) (RemoteUpdate record) ;;
            onUpdate (map (fun item => if (id item =? id record)%string
                                       then record else item) data) ;;
            onNotification "Perubahan data berhasil disimpan ke Sheet."
        | None =>
            newId <- await (addPatientToDB record) (RemoteCreate record) ;;
            if truthy_id newId then
              let newRecord := with_id record (default EmptyString newId) in
              onUpdate (newRecord :: data) ;;
              onNotification "Data pasien baru berhasil ditambahkan."
            else ret tt
        end) ;;
       setIsFormOpen false ;;
       setEditingItem None)
      (emit ConsoleError ;;
       onNotification "Gagal menyimpan data ke database.")
      w.

(** The loop of the bulk import: one awaited create per item, in order. *)
Fixpoint import_loop (newItems addedItems : list PatientRecord)
    : M Remote (list PatientRecord) :=
  match newItems with
  | [] => ret addedItems
  | item :: rest =>
      newId <- await (addPatientToDB item) (RemoteCreate item) ;;
      import_loop rest
        (if truthy_id newId
         then (addedItems ++ [with_id item (default EmptyString newId)])%list
         else addedItems)
  end.

Definition import_message (n : nat) : string :=
  "Berhasil mengimpor " ++ pretty n ++ " data ke database.".

(** What [JSON.parse] makes of the file: it throws, or gives a value that
    is an array of records or something else. *)
Inductive parsed := NotAnArray | ArrayOf (items : list PatientRecord).

(** The [onload] callback of [handleFileImport], for a file that has been
    read; [confirmed] is the answer to the [confirm] prompt. *)
Definition handleFileImport (file : outcome parsed) (confirmed : bool) : M Remote unit :=
  fun w =>
    let data := patientData w in
    try_catch
      (importedData <- (fun w => (file, w)) ;;
       match importedData with
       | ArrayOf importedData =>
           if confirmed then
             let existingRMs : gset string := list_to_set (map noKib data) in
             let newItems :=
               List.filter (fun d => negb (bool_decide (noKib d ∈ existingRMs)))
                           importedData in
             if (length newItems =? 0)%nat then
               onNotification "Semua data sudah ada di database."
             else
               addedItems <- import_loop newItems [] ;;
               onUpdate (addedItems ++ data) ;;
               onNotification (import_message (length addedItems))
           else ret tt
       | NotAnArray => ret tt
       end)
      (emit (Alert "Gagal membaca file atau koneksi error."))
      w.

End CrudOrchestrator.

(** *** Reading a trace *)

(** The records submitted to the store for creation, in order. *)
Definition submitted (events : list Event) : list PatientRecord :=
  omap (fun e => match e with RemoteCreate r _ => Some r | _ => None end) events.

(** The number of creations that came back with an identity. *)
Definition identities (events : list Event) : nat :=
  length (List.filter
            (fun e => match e with
                      | RemoteCreate _ (Resolved newId) => truthy_id newId
                      | _ => false
                      end) events).

(** The messages shown through [onNotification], in order. *)
Definition notified (events : list Event) : list string :=
  omap (fun e => match e with Notify msg => Some msg | _ => None end) events.

(** The imported items whose record number the local collection lacks. *)
Definition fresh_items (data importedData : list PatientRecord) : list PatientRecord :=
  List.filter (fun d => bool_decide (noKib d ∉ map noKib data)) importedData.

(** The events that a handler added to the trace between two worlds. *)
Definition since {Remote : Type} (w w' : World Remote) : list Event :=
  drop (length (trace w)) (trace w').

(** A store for the examples: it numbers the rows it is given. *)
Definition counting_store (item : PatientRecord) (next : nat)
    : outcome (option string) * nat :=
  (Resolved (Some ("row-" ++ pretty next)), S next).

(** A store that is out of reach. *)
Definition unreachable_delete (target : string) (r : nat) : outcome unit * nat :=
  (Rejected, r).

Definition unreachable_update (record : PatientRecord) (r : nat) : outcome bool * nat :=
  (Rejected, r).

(** A store that does as it is asked. *)
Definition obliging_delete (target : string) (r : nat) : outcome unit * nat :=
  (Resolved tt, S r).

Definition obliging_update (record : PatientRecord) (r : nat) : outcome bool * nat :=
  (Resolved true, S r).

Definition siti : PatientRecord :=
  mkPatient "id-2" 2 "2024-01-08" "RM-002" "Siti Aminah" "P3" "09:05" "-"
    "dr. Sari" "-" "-" "-" "-" "Rawat Jalan" "-" EmptyString.

Definition agus : PatientRecord :=
  mkPatient EmptyString 3 "2024-01-09" "RM-003" "Agus Salim" "P2" "22:10" "22:30"
    "dr. Hadi" "-" "-" "-" "-" "Dirujuk" "-" EmptyString.

Definition start_world {Remote : Type} (r : Remote) (data : list PatientRecord)
    (editing : option PatientRecord) : World Remote :=
  mkWorld r data ∅ (bool_decide (is_Some editing)) editing [].

(** ** Further parts of the code

    The rest of this part embeds code of the same files that the sections
    above leave out. *)

(** *** Narrowing a date range *)

(** The bounds [(startDate', endDate')] lie within [(startDate, endDate)]:
    each bound of the second pair is absent, or the first pair has one at
    least as tight. *)
Definition narrows (startDate endDate startDate' endDate' : string) : Prop :=
  (startDate = EmptyString \/ startDate' <> EmptyString /\ str_le startDate startDate')
  /\ (endDate = EmptyString \/ endDate' <> EmptyString /\ str_le endDate' endDate).

(** *** The header statistics of the table ([stats] of [DataTable.tsx]) *)

Record Stats := mkStats {
  total : nat;
  emergency : nat;
  inpatient : nat;
  waiting : nat
}.

Definition stats (filteredData : list PatientRecord) : Stats :=
  {| total := length filteredData;
     emergency := length (List.filter (fun p => (prioritas p =? "P1")%string) filteredData);
     inpatient := length (List.filter (fun p => (ket p =? "Rawat Inap")%string) filteredData);
     waiting := length (List.filter
                          (fun p => negb (truthy (jamDokter p)) || (jamDokter p =? "-")%string)
                          filteredData) |}.

(** *** The cards of the dashboard and of the reports view *)

Definition criticalPatients (patients : list PatientRecord) : nat :=
  length (List.filter (fun p => (prioritas p =? "P1")%string) patients).

Definition rawatInap (patients : list PatientRecord) : nat :=
  length (List.filter (fun p => (ket p =? "Rawat Inap")%string) patients).

Definition rawatJalan (patients : list PatientRecord) : nat :=
  length (List.filter (fun p => (ket p =? "Rawat Jalan")%string) patients).

(** [new Set(patients.map(p => p.dokterSpesialis).filter(s => s && s !== '-'))] *)
Definition specialists (patients : list PatientRecord) : gset string :=
  list_to_set
    (List.filter (fun s => truthy s && negb (s =? "-")%string)
                 (map dokterSpesialis patients)).

Definition totalSpecialists (patients : list PatientRecord) : nat :=
  size (specialists patients).

(** The number of records with disposition [k]. *)
Definition ket_count (patients : list PatientRecord) (k : string) : nat :=
  length (List.filter (fun p => (ket p =? k)%string) patients).

(** The number a point of the arrival chart shows. *)
Definition pasien_count (c : jsnum) : nat :=
  match c with JNum n => n | JNaN => 0 end.

(** The record arrived in one of the hours of the chart. *)
Definition in_window (p : PatientRecord) : bool :=
  match arrival_hour p with
  | Some h => ((6 <=? h) && (h <=? 22))%Z
  | None => false
  end.

(** The record names a specialist. *)
Definition names_specialist (p : PatientRecord) : bool :=
  truthy (dokterSpesialis p) && negb (dokterSpesialis p =? "-")%string.

(** [{...p, dokterSpesialis: s}] *)
Definition with_dokterSpesialis (p : PatientRecord) (s : string) : PatientRecord :=
  mkPatient (id p) (no p) (tanggal p) (noKib p) (namaPasien p)
    (prioritas p) (jamDatang p) (jamDokter p) (dpjp p)
    s (jamKonsul p) (jamRespon p)
    (jamResponSpesialis p) (ket p) (ruangan p) (masalah p).

(** *** Row selection ([DataTable.tsx])

    Each handler ends in [setSelectedIds]; it is given here as the set it
    stores. *)

(** [handleSelectAll(e)]; [checked] is [e.target.checked]. *)
Definition handleSelectAll (filteredData : list PatientRecord) (checked : bool)
    : gset string :=
  if checked then list_to_set (map id filteredData) else ∅.

(** [handleSelectOne(id)] *)
Definition handleSelectOne (selectedIds : gset string) (target : string) : gset string :=
  let newSelected := selectedIds in
  if bool_decide (target ∈ newSelected)
  then newSelected ∖ {[target]}
  else {[target]} ∪ newSelected.

Definition isAllSelected (filteredData : list PatientRecord) (selectedIds : gset string)
    : bool :=
  (0 <? length filteredData)%nat
  && forallb (fun item => bool_decide (id item ∈ selectedIds)) filteredData.

Definition isIndeterminate (filteredData : list PatientRecord) (selectedIds : gset string)
    : bool :=
  (0 <? size selectedIds)%nat && negb (isAllSelected filteredData selectedIds).

(** *** What the spreadsheet export takes ([handleExportExcel]) *)



(** *** Deleting from the form ([handleDeleteFromForm]) *)

Section DeleteFromForm.

Local Open Scope handler_scope.

Context {Remote : Type}.
Variable deletePatientFromDB : string -> Remote -> outcome unit * Remote.

(** [handleDeleteFromForm(id)]; the form has asked for confirmation before
    it calls. *)
Definition handleDeleteFromForm (target : string) : M Remote unit :=
  fun w =>
    let data := patientData w in
    let selected := selectedIds w in
    try_catch
      (await (deletePatientFromDB target) (RemoteDelete target) ;;
       let newData := List.filter (fun item => negb (id item =? target)%string) data in
       onUpdate newData ;;
       (if bool_decide (target ∈ selected)
        then setSelectedIds (selected ∖ {[target]})
        else ret tt) ;;
       setIsFormOpen false ;;
       setEditingItem None ;;
       onNotification "Data pasien berhasil dihapus.")
      (emit ConsoleError ;;
       onNotification "Gagal menghapus data.")
      w.

End DeleteFromForm.

(** *** Reading a trace, continued *)

(** The records that the creations which came back with an identity give,
    each with that identity as its [id]. *)
Definition merged (events : list Event) : list PatientRecord :=
  omap (fun e => match e with
                 | RemoteCreate r (Resolved newId) =>
                     if truthy_id newId
                     then Some (with_id r (default EmptyString newId))
                     else None
                 | _ => None
                 end) events.

(** A store that takes the row but gives no identity back. *)
Definition mute_store (item : PatientRecord) (next : nat)
    : outcome (option string) * nat :=
  (Resolved None, S next).

(** A store that is out of reach for creations. *)
Definition unreachable_create (item : PatientRecord) (r : nat)
    : outcome (option string) * nat :=
  (Rejected, r).

(** *** Loading the collection ([App.tsx])

    [getPatientsFromDB] belongs to the store client and is a parameter, like
    the three operations above.  The timers that clear the notification
    after three seconds are left out: [notification] is the message on
    screen when the handler returns, and [shown] lists the messages in the
    order in which they were put there. *)

Module App.

Record State (Remote : Type) := mkState {
  remote : Remote;
  patientData : list PatientRecord;
  notification : option string;
  isLoading : bool;
  shown : list string
}.
Arguments mkState {Remote} _ _ _ _ _.
Arguments remote {Remote} _.
Arguments patientData {Remote} _.
Arguments notification {Remote} _.
Arguments isLoading {Remote} _.
Arguments shown {Remote} _.

Section Loading.

Context {Remote : Type}.
Variable getPatientsFromDB : Remote -> outcome (list PatientRecord) * Remote.

Definition showNotification (msg : string) (s : State Remote) : State Remote :=
  mkState (remote s) (patientData s) (Some msg) (isLoading s) (shown s ++ [msg]).

Definition setIsLoading (b : bool) (s : State Remote) : State Remote :=
  mkState (remote s) (patientData s) (notification s) b (shown s).

Definition setPatientData (dbData : list PatientRecord) (s : State Remote)
    : State Remote :=
  mkState (remote s) dbData (notification s) (isLoading s) (shown s).

Definition setRemote (r : Remote) (s : State Remote) : State Remote :=
  mkState r (patientData s) (notification s) (isLoading s) (shown s).

(** [fetchData()]: [try], [catch] and [finally] in turn. *)
Definition fetchData (s : State Remote) : State Remote :=
  let s1 := setIsLoading true s in
  let '(result, remote') := getPatientsFromDB (remote s1) in
  let s2 := setRemote remote' s1 in
  let s3 :=
    match result with
    | Resolved dbData => setPatientData dbData s2
    | Rejected =>
        showNotification "Gagal terhubung ke Google Sheets. Cek koneksi internet." s2
    end in
  setIsLoading false s3.

(** [handleManualRefresh()] *)
Definition handleManualRefresh (s : State Remote) : State Remote :=
  showNotification "Data berhasil disinkronisasi dengan Google Sheet." (fetchData s).

End Loading.

End App.

(** A store that hands out two rows, and one that cannot be reached. *)
Definition serving_store (r : nat) : outcome (list PatientRecord) * nat :=
  (Resolved [siti; agus], S r).

Definition unreachable_read (r : nat) : outcome (list PatientRecord) * nat :=
  (Rejected, r).

(** *** The patient form ([PatientForm]) *)

(** The inputs of the form, by their [name] attribute. *)
Inductive input :=
| in_tanggal | in_noKib | in_namaPasien | in_prioritas | in_jamDatang
| in_jamRespon | in_jamDokter | in_dpjp | in_jamKonsul | in_dokterSpesialis
| in_jamResponSpesialis | in_ket | in_ruangan | in_masalah.

#[global] Instance input_eq_dec : EqDecision input.
Proof. solve_decision. Defined.

(** [formData[name]] for the name of an input. *)
Definition field (name : input) (r : PatientRecord) : string :=
  match name with
  | in_tanggal => tanggal r
  | in_noKib => noKib r
  | in_namaPasien => namaPasien r
  | in_prioritas => prioritas r
  | in_jamDatang => jamDatang r
  | in_jamRespon => jamRespon r
  | in_jamDokter => jamDokter r
  | in_dpjp => dpjp r
  | in_jamKonsul => jamKonsul r
  | in_dokterSpesialis => dokterSpesialis r
  | in_jamResponSpesialis => jamResponSpesialis r
  | in_ket => ket r
  | in_ruangan => ruangan r
  | in_masalah => masalah r
  end.

(** [handleChange(e)]: [{ ...prev, [name]: value }], where [name] and
    [value] are those of the input that changed. *)
Definition handleChange (name : input) (value : string) (prev : PatientRecord)
    : PatientRecord :=
  let pick n old := if decide (name = n) then value else old in
  mkPatient (id prev) (no prev)
    (pick in_tanggal (tanggal prev)) (pick in_noKib (noKib prev))
    (pick in_namaPasien (namaPasien prev)) (pick in_prioritas (prioritas prev))
    (pick in_jamDatang (jamDatang prev)) (pick in_jamDokter (jamDokter prev))
    (pick in_dpjp (dpjp prev)) (pick in_dokterSpesialis (dokterSpesialis prev))
    (pick in_jamKonsul (jamKonsul prev)) (pick in_jamRespon (jamRespon prev))
    (pick in_jamResponSpesialis (jamResponSpesialis prev)) (pick in_ket (ket prev))
    (pick in_ruangan (ruangan prev)) (pick in_masalah (masalah prev)).

(** [emptyRecord]; [today] is [new Date().toISOString().split('T')[0]]. *)
Definition emptyRecord (today : string) : PatientRecord :=
  mkPatient EmptyString 0 today EmptyString EmptyString "P3" EmptyString EmptyString
    EmptyString EmptyString EmptyString EmptyString EmptyString "Rawat Jalan" "-"
    EmptyString.

(** The form data after a series of changes, oldest first. *)
Definition typed (changes : list (input * string)) (formData : PatientRecord)
    : PatientRecord :=
  fold_left (fun prev c => handleChange c.1 c.2 prev) changes formData.

(** What [handleSubmit] hands to [onSave]; [generated] is
    [Math.random().toString(36).substr(2, 9)] and [now] is [Date.now()]. *)
Definition handleSubmit (generated : string) (now : Z) (formData : PatientRecord)
    : PatientRecord :=
  mkPatient (if truthy (id formData) then id formData else generated)
    (if (no formData =? 0)%Z then now else no formData)
    (tanggal formData) (noKib formData) (namaPasien formData)
    (prioritas formData) (jamDatang formData) (jamDokter formData) (dpjp formData)
    (dokterSpesialis formData) (jamKonsul formData) (jamRespon formData)
    (jamResponSpesialis formData) (ket formData) (ruangan formData) (masalah formData).

(** *** The store behind the client ([doPost], the Apps Script that the
    settings panel hands out)

    The sheet is the list of its rows, the header row first; a row is the
    list of its cells.  What a cell holds once a value has been written to
    it is the spreadsheet's business: cells are of an arbitrary type, with
    the cell a written string or number becomes ([text], [number]), the cell
    a missing value leaves ([blank]) and the text [String(v)] gives for the
    value [v] of a cell read back ([as_string]) as parameters.  The sheet
    named 'Data' is taken to be there (the script makes it, with its header
    row, when it is not); the requests are given parsed; the [read] action
    and the script lock are left out. *)

Module Script.

Inductive Request (Cell : Type) :=
| Create (data : PatientRecord) (createdAt : Cell)
    (** [action == 'create']; [createdAt] is the cell [new Date()] becomes *)
| Update (data : PatientRecord)
| Delete (target : string).
Arguments Create {Cell} _ _.
Arguments Update {Cell} _.
Arguments Delete {Cell} _.

(** The [result] that is sent back. *)
Inductive Result :=
| Success
    (** [{ status: 'success' }] *)
| SuccessWithId (newId : string)
    (** [{ status: 'success', id: data.id }] *)
| Warning
    (** [{ status: 'warning' }] *).

Section DoPost.

Context {Cell : Type}.
Variable text : string -> Cell.
Variable number : Z -> Cell.
Variable blank : Cell.
Variable as_string : Cell -> string.

(** [String(rows[i][0])]; a row without cells reads [undefined]. *)
Definition first_cell (r : list Cell) : string :=
  match r with
  | c :: _ => as_string c
  | [] => "undefined"
  end.

(** The loop [for (var i = 1; i < rows.length; i++)] up to its [break]:
    the index of the first row, from index [i] on, whose first cell reads as
    [target]. *)
Fixpoint search (rows : list (list Cell)) (i : nat) (target : string) : option nat :=
  match rows with
  | [] => None
  | r :: rest =>
      if (first_cell r =? target)%string then Some i else search rest (S i) target
  end.

Definition find_row (sheet : list (list Cell)) (target : string) : option nat :=
  search (drop 1 sheet) 1 target.

(** The sixteen cells of a record, in the order of the header; [no] is the
    cell for the sequence number. *)
Definition cells (data : PatientRecord) (no : Cell) : list Cell :=
  [ text (id data); no; text (tanggal data); text (noKib data);
    text (namaPasien data); text (prioritas data); text (jamDatang data);
    text (jamDokter data); text (dpjp data); text (dokterSpesialis data);
    text (jamKonsul data); text (jamRespon data); text (jamResponSpesialis data);
    text (ket data); text (ruangan data); text (masalah data) ].

Definition doPost (request : Request Cell) (sheet : list (list Cell))
    : Result * list (list Cell) :=
  match request with
  | Create data createdAt =>
      (* data.no || 0 *)
      let row := (cells data (number (if (no data =? 0)%Z then 0%Z else no data))
                  ++ [createdAt])%list in
      (SuccessWithId (id data), (sheet ++ [row])%list)
  | Update data =>
      match find_row sheet (id data) with
      | Some i =>
          let old := default [] (sheet !! i) in
          (* data.no || rows[i][1] *)
          let no_cell := if (no data =? 0)%Z
                         then default blank (old !! 1)
                         else number (no data) in
          (* getRange(rowIndex, 1, 1, 16).setValues(updateValues) *)
          (Success, <[i := (cells data no_cell ++ drop 16 old)%list]> sheet)
      | None => (Warning, sheet)
      end
  | Delete target =>
      match find_row sheet target with
      | Some i => (Success, delete i sheet)
      | None => (Success, sheet)
      end
  end.

End DoPost.

End Script.

(** The number of data rows of the sheet whose first cell reads as [target]. *)
Definition rows_with_id {Cell : Type} (as_string : Cell -> string)
    (sheet : list (list Cell)) (target : string) : nat :=
  length (List.filter (fun r => (Script.first_cell as_string r =? target)%string)
                      (drop 1 sheet)).

(** A sheet for the examples: cells are the text written to them, numbers in
    decimal. *)
Definition plain_number (z : Z) : string := pretty z.

Definition header : list string :=
  ["id"; "no"; "tanggal"; "noKib"; "namaPasien"; "prioritas"; "jamDatang";
   "jamDokter"; "dpjp"; "dokterSpesialis"; "jamKonsul"; "jamRespon";
   "jamResponSpesialis"; "ket"; "ruangan"; "masalah"; "createdAt"].

Definition plain_post := @Script.doPost string (fun s => s) plain_number EmptyString (fun s => s).

(** * Properties *)

Section FilterFacts.

Lemma append_cons (c : ascii) (a b : string) : String c a ++ b = String c (a ++ b).
Proof. reflexivity. Qed.

Lemma prefix_true_iff (a s : string) :
  String.prefix a s = true <-> exists post, s = a ++ post.
Proof.
  revert s; induction a as [|c a IH]; intros s.
  - destruct s; simpl; split; eauto.
  - destruct s as [|d s]; simpl.
    + split; [discriminate | intros [post H]; discriminate].
    + destruct (ascii_dec c d) as [->|Hne].
      * rewrite IH. split; intros [post H]; exists post;
          rewrite append_cons in *; congruence.
      * split; [discriminate | intros [post H]; rewrite append_cons in H; congruence].
Qed.

Lemma includes_cons (c : ascii) (s sub : string) :
  includes (String c s) sub = String.prefix sub (String c s) || includes s sub.
Proof. reflexivity. Qed.

Lemma includes_nil (sub : string) : includes EmptyString sub = String.prefix sub EmptyString.
Proof. unfold includes. apply orb_false_r. Qed.

Lemma includes_iff (s sub : string) :
  includes s sub = true <-> substring_of sub s.
Proof.
  unfold substring_of.
  induction s as [|c s IH].
  - rewrite includes_nil, prefix_true_iff. split.
    + intros [post H]. exists EmptyString, post. exact H.
    + intros [pre [post H]]. destruct pre; [eauto | discriminate].
  - rewrite includes_cons, orb_true_iff, IH, prefix_true_iff. split.
    + intros [[post H] | [pre [post H]]].
      * exists EmptyString, post. exact H.
      * exists (String c pre), post. rewrite append_cons. now f_equal.
    + intros [pre [post H]]. destruct pre as [|d pre].
      * left. eauto.
      * right. exists pre, post. rewrite append_cons in H. now inversion H.
Qed.

Lemma ltb_false_leb (a b : string) : String.ltb a b = false <-> String.leb b a = true.
Proof.
  unfold String.ltb, String.leb. rewrite (String.compare_antisym a b).
  destruct (String.compare b a); simpl; split; congruence.
Qed.

Lemma truthy_true (s : string) : truthy s = true <-> s <> EmptyString.
Proof.
  unfold truthy. rewrite negb_true_iff. apply String.eqb_neq.
Qed.

Lemma truthy_false (s : string) : truthy s = false <-> s = EmptyString.
Proof.
  unfold truthy. rewrite negb_false_iff. apply String.eqb_eq.
Qed.

Lemma filter_exact_subseq {A : Type} (f : A -> bool) (l : list A) :
  exact_subseq (fun x => f x = true) l (List.filter f l).
Proof.
  induction l as [|x l IH]; simpl.
  - constructor.
  - destruct (f x) eqn:E.
    + now constructor.
    + apply es_drop; [congruence | exact IH].
Qed.

Lemma exact_subseq_ext {A : Type} (P Q : A -> Prop) (l r : list A) :
  (forall x, P x <-> Q x) -> exact_subseq P l r -> exact_subseq Q l r.
Proof.
  intros HPQ H; induction H; constructor; try assumption; rewrite <- HPQ; assumption.
Qed.

End FilterFacts.

Section FilterEngine.

Lemma matchesDate_table_iff sd ed p :
  matchesDate_table sd ed p = true <-> within_dates sd ed p.
Proof.
  unfold matchesDate_table, within_dates, str_le, js_lt, js_gt.
  destruct (truthy sd) eqn:Hs, (truthy ed) eqn:He; simpl;
    try apply truthy_true in Hs; try apply truthy_false in Hs;
    try apply truthy_true in He; try apply truthy_false in He.
  - destruct (String.ltb (tanggal p) sd) eqn:L1, (String.ltb ed (tanggal p)) eqn:L2;
      rewrite <- !ltb_false_leb; intuition congruence.
  - destruct (String.ltb (tanggal p) sd) eqn:L1;
      rewrite <- !ltb_false_leb; intuition congruence.
  - destruct (String.ltb ed (tanggal p)) eqn:L2;
      rewrite <- !ltb_false_leb; intuition congruence.
  - intuition congruence.
Qed.

Lemma matchesSearch_table_iff q p :
  matchesSearch_table q p = true <-> text_criterion_table q p.
Proof.
  unfold matchesSearch_table, text_criterion_table, ci_match.
  rewrite !orb_true_iff, !includes_iff. tauto.
Qed.

Lemma matchesSearch_report_iff q p :
  matchesSearch_report q p = true <-> text_criterion_report q p.
Proof.
  unfold matchesSearch_report, text_criterion_report, ci_match.
  destruct (truthy q) eqn:Hq.
  - apply truthy_true in Hq. rewrite orb_true_iff, !includes_iff. tauto.
  - apply truthy_false in Hq. tauto.
Qed.

Lemma report_dates_iff sd ed p :
  (if truthy sd then js_ge (tanggal p) sd else true)
  && (if truthy ed then js_le (tanggal p) ed else true) = true
  <-> within_dates sd ed p.
Proof.
  unfold within_dates, str_le, js_ge, js_le.
  rewrite andb_true_iff.
  destruct (truthy sd) eqn:Hs, (truthy ed) eqn:He;
    try apply truthy_true in Hs; try apply truthy_false in Hs;
    try apply truthy_true in He; try apply truthy_false in He;
    rewrite ?negb_true_iff, ?ltb_false_leb; intuition congruence.
Qed.

Lemma exact_subseq_sublist {A : Type} (P : A -> Prop) (l r : list A) :
  exact_subseq P l r -> sublist r l.
Proof.
  induction 1; [constructor | now apply sublist_skip | now apply sublist_cons].
Qed.

Lemma exact_subseq_unique {A : Type} (P : A -> Prop) (l r1 r2 : list A) :
  exact_subseq P l r1 -> exact_subseq P l r2 -> r1 = r2.
Proof.
  intros H1; revert r2; induction H1; intros r2 H2; inversion H2; subst;
    try reflexivity; try contradiction.
  - f_equal. now apply IHexact_subseq.
  - now apply IHexact_subseq.
Qed.

Lemma exact_subseq_elem {A : Type} (P : A -> Prop) (l r : list A) :
  exact_subseq P l r -> forall x, x ∈ r <-> x ∈ l /\ P x.
Proof.
  induction 1; intros y.
  - split; [intros Hy | intros [Hy _]]; inversion Hy.
  - rewrite !elem_of_cons, IHexact_subseq. intuition congruence.
  - rewrite elem_of_cons, IHexact_subseq. intuition congruence.
Qed.

Lemma filter_idem {A : Type} (f : A -> bool) (l : list A) :
  List.filter f (List.filter f l) = List.filter f l.
Proof.
  induction l as [|x l IH]; simpl; [reflexivity |].
  destruct (f x) eqn:E; simpl; [rewrite E, IH |]; easy.
Qed.

End FilterEngine.

(** C1. For every collection and every combination of start date, end date
    and query, each view's filter returns exactly the records that lie within
    the supplied date bounds (compared as strings, an absent bound
    constraining nothing) and match the query, in their original relative
    order. *)
Theorem filter_engine_exact_subsequence
    (data : list PatientRecord) (query startDate endDate : string) :
  (exact_subseq
     (fun p => within_dates startDate endDate p /\ text_criterion_table query p)
     data (filteredData data query startDate endDate)
   /\ sublist (filteredData data query startDate endDate) data)
  /\ (exact_subseq
        (fun p => within_dates startDate endDate p /\ text_criterion_report query p)
        data (filteredPatients data startDate endDate query)
      /\ sublist (filteredPatients data startDate endDate query) data).
Proof.
  assert (Ht : exact_subseq
     (fun p => within_dates startDate endDate p /\ text_criterion_table query p)
     data (filteredData data query startDate endDate)).
  { unfold filteredData. eapply exact_subseq_ext; [| apply filter_exact_subseq].
    intros p. cbv beta. rewrite andb_true_iff, matchesSearch_table_iff, matchesDate_table_iff.
    tauto. }
  assert (Hr : exact_subseq
     (fun p => within_dates startDate endDate p /\ text_criterion_report query p)
     data (filteredPatients data startDate endDate query)).
  { unfold filteredPatients. eapply exact_subseq_ext; [| apply filter_exact_subseq].
    intros p. cbv beta zeta.
    rewrite andb_true_iff, matchesSearch_report_iff, report_dates_iff. tauto. }
  split; (split; [assumption | eapply exact_subseq_sublist; eassumption]).
Qed.

(** C8. Filtering is idempotent at both call sites: filtering the filtered
    result again, with the same criteria, returns the same sequence. *)
Theorem filter_idempotent
    (data : list PatientRecord) (query startDate endDate : string) :
  filteredData (filteredData data query startDate endDate) query startDate endDate
  = filteredData data query startDate endDate
  /\ filteredPatients (filteredPatients data startDate endDate query)
       startDate endDate query
     = filteredPatients data startDate endDate query.
Proof.
  unfold filteredData, filteredPatients. split; apply filter_idem.
Qed.


Section Histogram.

Lemma timeBins_snoc ps p : timeBins (ps ++ [p]) = timeBins_step (timeBins ps) p.
Proof. unfold timeBins. now rewrite fold_left_app. Qed.

Lemma hour_count_app ps1 ps2 h :
  hour_count (ps1 ++ ps2) h = hour_count ps1 h + hour_count ps2 h.
Proof. unfold hour_count. now rewrite List.filter_app, length_app. Qed.

Lemma hour_count_cons p ps h :
  hour_count (p :: ps) h
  = (if decide (arrival_hour p = Some (Z.of_nat h)) then 1 else 0) + hour_count ps h.
Proof.
  unfold hour_count. simpl. unfold bool_decide.
  destruct (decide_rel eq (arrival_hour p) (Some (Z.of_nat h))) as [E|E];
    destruct (decide (arrival_hour p = Some (Z.of_nat h))); try contradiction; reflexivity.
Qed.

Lemma hour_count_insert before after p h :
  hour_count (before ++ p :: after) h
  = hour_count (before ++ after) h
    + (if decide (arrival_hour p = Some (Z.of_nat h)) then 1 else 0).
Proof. rewrite !hour_count_app, hour_count_cons. lia. Qed.

Lemma incr_holds bins c hour :
  bins_hold bins c ->
  bins_hold (timeBins_incr bins hour)
            (fun h => c h + (if decide (hour = Z.of_nat h) then 1 else 0)).
Proof.
  intros [Hlen Hc]. unfold timeBins_incr.
  destruct ((0 <=? hour)%Z && (hour <? 2 ^ 32 - 1)%Z) eqn:Hrange.
  - apply andb_true_iff in Hrange as [H0 _]. apply Z.leb_le in H0.
    destruct (Z.to_nat hour <? length bins)%nat eqn:Hin.
    + apply Nat.ltb_lt in Hin. split; [now rewrite length_insert |].
      intros h Hh. rewrite list_lookup_insert.
      destruct (decide (Z.to_nat hour = h /\ Z.to_nat hour < length bins)) as [[E _]|N].
      * rewrite decide_True by lia. rewrite E, (Hc h Hh). reflexivity.
      * rewrite decide_False by lia. rewrite Nat.add_0_r. now apply Hc.
    + apply Nat.ltb_ge in Hin. split; [rewrite length_app; lia |].
      intros h Hh. rewrite lookup_app_l by lia.
      rewrite decide_False by lia. rewrite Nat.add_0_r. now apply Hc.
  - split; [exact Hlen |]. intros h Hh.
    rewrite decide_False; [rewrite Nat.add_0_r; now apply Hc |].
    intros ->. apply andb_false_iff in Hrange as [H|H];
      [apply Z.leb_gt in H | apply Z.ltb_ge in H]; lia.
Qed.

Lemma step_holds bins c p :
  bins_hold bins c ->
  bins_hold (timeBins_step bins p)
            (fun h => c h + (if decide (arrival_hour p = Some (Z.of_nat h)) then 1 else 0)).
Proof.
  intros H. unfold timeBins_step, arrival_hour.
  destruct (truthy (jamDatang p) && negb (jamDatang p =? "-")%string).
  - destruct (parseInt (before_colon (jamDatang p))) as [hour|].
    + destruct (incr_holds bins c hour H) as [Hl Hc]. split; [exact Hl |].
      intros h Hh. rewrite (Hc h Hh).
      destruct (decide (hour = Z.of_nat h)), (decide (Some hour = Some (Z.of_nat h)));
        congruence.
    + destruct H as [Hl Hc]. split; [exact Hl |]. intros h Hh.
      rewrite decide_False by discriminate. rewrite Nat.add_0_r. now apply Hc.
  - destruct H as [Hl Hc]. split; [exact Hl |]. intros h Hh.
    rewrite decide_False by discriminate. rewrite Nat.add_0_r. now apply Hc.
Qed.

Lemma timeBins_hold ps : bins_hold (timeBins ps) (hour_count ps).
Proof.
  induction ps as [|p ps IH] using rev_ind.
  - split; [simpl; lia |]. intros h Hh.
    change (timeBins []) with (replicate 24 (Some (JNum 0))).
    now rewrite lookup_replicate_2.
  - rewrite timeBins_snoc. destruct (step_holds _ _ p IH) as [Hl Hc].
    split; [exact Hl |]. intros h Hh. rewrite (Hc h Hh), hour_count_app, hour_count_cons.
    unfold hour_count at 3. simpl. now rewrite Nat.add_0_r.
Qed.

Lemma bins_hold_take bins c :
  bins_hold bins c -> take 24 bins = map (fun h => Some (JNum (c h))) (seq 0 24).
Proof.
  intros [Hl Hc]. apply list_eq. intros i.
  destruct (decide (i < 24)) as [Hi|Hi].
  - rewrite lookup_take_lt by exact Hi. rewrite (Hc i Hi).
    change (map ?f ?l) with (f <$> l). rewrite list_lookup_fmap, lookup_seq_lt by exact Hi.
    reflexivity.
  - rewrite lookup_take_ge by lia. symmetry. apply lookup_ge_None.
    rewrite length_map, length_seq. lia.
Qed.

Lemma filter_index_app {A : Type} (keep : nat -> bool) (i : nat) (l1 l2 : list (option A)) :
  filter_index keep i (l1 ++ l2)%list
  = (filter_index keep i l1 ++ filter_index keep (i + length l1) l2)%list.
Proof.
  revert i; induction l1 as [|[x|] l1 IH]; intros i; simpl.
  - now rewrite Nat.add_0_r.
  - rewrite IH, Nat.add_succ_r. now destruct (keep i).
  - now rewrite IH, Nat.add_succ_r.
Qed.

Lemma filter_index_beyond {A : Type} (keep : nat -> bool) (i : nat) (l : list (option A)) :
  (forall j, i <= j -> keep j = false) -> filter_index keep i l = [].
Proof.
  revert i; induction l as [|[x|] l IH]; intros i Hk; simpl; [reflexivity | |].
  - rewrite (Hk i) by lia. apply IH. intros j Hj. apply Hk. lia.
  - apply IH. intros j Hj. apply Hk. lia.
Qed.

Lemma chart_of_bins bins c :
  bins_hold bins c ->
  filter_index (fun i => (6 <=? i)%nat && (i <=? 22)%nat) 0
    (imap (fun hour cell =>
             (fun count => Trend.mk (pretty hour ++ ":00") count) <$> cell) bins)
  = map (fun h => Trend.mk (pretty h ++ ":00") (JNum (c h))) window.
Proof.
  intros H. pose proof (bins_hold_take bins c H) as Ht. destruct H as [Hl _].
  rewrite <- (take_drop 24 bins), Ht, imap_app, filter_index_app.
  rewrite (filter_index_beyond _ _ (imap _ (drop 24 bins))).
  - rewrite app_nil_r. reflexivity.
  - intros j Hj. rewrite length_imap, length_map, length_seq in Hj.
    apply andb_false_iff. right. apply Nat.leb_gt. lia.
Qed.

Lemma take24_insert before after p :
  take 24 (timeBins (before ++ p :: after))
  = map (fun h => Some (JNum ((if decide (arrival_hour p = Some (Z.of_nat h)) then 1 else 0)
                              + hour_count (before ++ after) h)))
        (seq 0 24).
Proof.
  rewrite (bins_hold_take _ _ (timeBins_hold _)).
  apply map_ext. intros h. rewrite hour_count_insert. do 2 f_equal. lia.
Qed.

Lemma chart_counts ps :
  arrivalTrendData ps
  = map (fun h => Trend.mk (pretty h ++ ":00") (JNum (hour_count ps h))) window.
Proof. unfold arrivalTrendData. apply chart_of_bins, timeBins_hold. Qed.

Lemma chart_insert before after p :
  arrivalTrendData (before ++ p :: after)
  = map (fun h => Trend.mk (pretty h ++ ":00")
                    (JNum ((if decide (arrival_hour p = Some (Z.of_nat h)) then 1 else 0)
                           + hour_count (before ++ after) h)))
        window.
Proof.
  rewrite chart_counts. apply map_ext. intros h.
  rewrite hour_count_insert. do 2 f_equal. lia.
Qed.

End Histogram.

(** C3. In the hour-of-day histogram a record that arrived at 14:30 adds
    exactly one to bucket 14 and leaves the other buckets as they are; a
    record whose arrival time is the sentinel "-", empty, or "25:99" changes
    none of the 24 buckets, nor the chart; and the chart shows exactly the
    buckets of the hours 6 to 22, in increasing order, each with the number
    of records counted in that hour. *)
Theorem hour_histogram (patients before after : list PatientRecord) (r : PatientRecord) :
  let without := (before ++ after)%list in
  let with_arrival t := (before ++ with_jamDatang r t :: after)%list in
  (take 24 (timeBins (with_arrival "14:30"))
   = <[14 := Some (JNum (S (hour_count without 14)))]> (take 24 (timeBins without))
   /\ timeBins without !! 14 = Some (Some (JNum (hour_count without 14))))
  /\ (take 24 (timeBins (with_arrival "-")) = take 24 (timeBins without)
      /\ take 24 (timeBins (with_arrival EmptyString)) = take 24 (timeBins without)
      /\ take 24 (timeBins (with_arrival "25:99")) = take 24 (timeBins without))
  /\ (arrivalTrendData (with_arrival "-") = arrivalTrendData without
      /\ arrivalTrendData (with_arrival EmptyString) = arrivalTrendData without
      /\ arrivalTrendData (with_arrival "25:99") = arrivalTrendData without)
  /\ (arrivalTrendData patients
      = map (fun h => Trend.mk (pretty h ++ ":00") (JNum (hour_count patients h))) window
      /\ map Trend.name (arrivalTrendData patients)
         = ["6:00"; "7:00"; "8:00"; "9:00"; "10:00"; "11:00"; "12:00"; "13:00";
            "14:00"; "15:00"; "16:00"; "17:00"; "18:00"; "19:00"; "20:00";
            "21:00"; "22:00"]).
Proof.
  intros without with_arrival. subst with_arrival. cbv beta.
  rewrite !take24_insert, !chart_insert.
  rewrite (bins_hold_take _ _ (timeBins_hold without)).
  rewrite (chart_counts without), (chart_counts patients).
  repeat split; try reflexivity.
  destruct (timeBins_hold without) as [_ H]. apply H. lia.
Qed.

Section CategoryCounts.

Lemma priority_total_cons p ps :
  priority_total (p :: ps) = (if in_priorities p then 1 else 0) + priority_total ps.
Proof.
  unfold priority_total, priorityData, in_priorities, priorities. simpl.
  destruct (prioritas p =? "P1")%string eqn:E1;
  destruct (prioritas p =? "P2")%string eqn:E2;
  destruct (prioritas p =? "P3")%string eqn:E3;
  destruct (prioritas p =? "P4")%string eqn:E4;
  destruct (prioritas p =? "P5")%string eqn:E5;
  simpl;
  try apply String.eqb_eq in E1; try apply String.eqb_eq in E2;
  try apply String.eqb_eq in E3; try apply String.eqb_eq in E4;
  try apply String.eqb_eq in E5;
  try congruence; lia.
Qed.

Lemma priority_total_valid ps :
  priority_total ps = length (List.filter in_priorities ps).
Proof.
  induction ps as [|p ps IH]; [reflexivity |].
  rewrite priority_total_cons, IH. simpl. now destruct (in_priorities p).
Qed.

Lemma in_priorities_true p : prioritas p ∈ priorities -> in_priorities p = true.
Proof.
  intros H. unfold in_priorities. apply existsb_exists. exists (prioritas p).
  split; [now apply list_elem_of_In | apply String.eqb_refl].
Qed.

Lemma filter_all {A : Type} (f : A -> bool) (l : list A) :
  (forall x, x ∈ l -> f x = true) -> List.filter f l = l.
Proof.
  induction l as [|x l IH]; intros H; simpl; [reflexivity |].
  rewrite (H x) by apply list_elem_of_here. f_equal. apply IH.
  intros y Hy. apply H. now apply list_elem_of_further.
Qed.

Lemma statusCounts_snoc ps p :
  statusCounts (ps ++ [p])
  = assign (statusCounts ps) (ket p) (next_count (statusCounts ps) (ket p)).
Proof. unfold statusCounts. now rewrite fold_left_app. Qed.

Lemma observed_snoc_l ps p k : observed ps k -> observed (ps ++ [p]) k.
Proof. intros [q [Hq E]]. exists q. split; [| exact E]. apply elem_of_app. now left. Qed.

Lemma observed_snoc_r ps p : observed (ps ++ [p]) (ket p).
Proof.
  exists p. split; [| reflexivity]. apply elem_of_app. right. apply list_elem_of_here.
Qed.

Lemma statusCounts_observed ps k v :
  statusCounts ps !! k = Some v -> observed ps k.
Proof.
  revert k v; induction ps as [|p ps IH] using rev_ind; intros k v.
  - unfold statusCounts. simpl. now rewrite lookup_empty.
  - rewrite statusCounts_snoc. unfold assign.
    destruct (ket p =? "__proto__")%string.
    + intros H. eapply observed_snoc_l, IH, H.
    + rewrite lookup_insert. destruct (decide (ket p = k)) as [<-|N].
      * intros _. apply observed_snoc_r.
      * intros H. eapply observed_snoc_l, IH, H.
Qed.

Lemma statusCounts_present ps p :
  p ∈ ps -> ket p <> "__proto__" -> is_Some (statusCounts ps !! ket p).
Proof.
  induction ps as [|q ps IH] using rev_ind; intros Hp Hk.
  - inversion Hp.
  - rewrite statusCounts_snoc. unfold assign.
    destruct (ket q =? "__proto__")%string eqn:Eq.
    + apply elem_of_app in Hp as [Hp|Hp]; [now apply IH |].
      apply list_elem_of_singleton in Hp. subst q.
      apply String.eqb_eq in Eq. contradiction.
    + rewrite lookup_insert. destruct (decide (ket q = ket p)) as [E|N]; [eauto |].
      apply elem_of_app in Hp as [Hp|Hp]; [now apply IH |].
      apply list_elem_of_singleton in Hp. subst q. contradiction.
Qed.

(** What [statusCounts] holds under each key: a text under a key that
    [Object.prototype] has, a positive count under any other. *)
Lemma statusCounts_shape ps k v :
  statusCounts ps !! k = Some v ->
  if inherited k then exists i, v = VText k i else exists n, v = VNum (S n).
Proof.
  revert k v; induction ps as [|p ps IH] using rev_ind; intros k v.
  - unfold statusCounts. simpl. now rewrite lookup_empty.
  - rewrite statusCounts_snoc. unfold assign.
    destruct (ket p =? "__proto__")%string eqn:Eq; [apply IH |].
    rewrite lookup_insert. destruct (decide (ket p = k)) as [<-|N]; [| apply IH].
    intros [= <-]. unfold next_count. rewrite Eq.
    destruct (statusCounts ps !! ket p) as [old|] eqn:Hold.
    + apply IH in Hold. destruct (inherited (ket p)).
      * destruct Hold as [i ->]. eauto.
      * destruct Hold as [n ->]. exists (S n). f_equal. lia.
    + destruct (inherited (ket p)); eauto.
Qed.

Lemma sum_list_with_fmap {A B : Type} (f : B -> nat) (g : A -> B) (l : list A) :
  sum_list_with f (g <$> l) = sum_list_with (fun x => f (g x)) l.
Proof. induction l as [|x l IH]; csimpl; [| rewrite IH]; reflexivity. Qed.

Lemma status_total_alt ps :
  status_total ps
  = sum_list_with (fun kv => count_of kv.2) (map_to_list (statusCounts ps)).
Proof. unfold status_total, statusData. rewrite sum_list_with_fmap. reflexivity. Qed.

Lemma total_insert (m : gmap string jsval) k v :
  sum_list_with (fun kv => count_of kv.2) (map_to_list (<[k := v]> m))
  + count_of (default (VNum 0) (m !! k))
  = sum_list_with (fun kv : string * jsval => count_of kv.2) (map_to_list m) + count_of v.
Proof.
  destruct (m !! k) as [old|] eqn:Hk; simpl.
  - rewrite <- (insert_delete_eq m).
    rewrite (map_to_list_insert (delete k m) k v) by apply lookup_delete_eq.
    rewrite <- (map_to_list_delete m k old Hk). simpl. lia.
  - rewrite (map_to_list_insert m k v Hk). simpl. lia.
Qed.

Lemma status_total_snoc ps p :
  status_total (ps ++ [p]) = status_total ps + (if inherited (ket p) then 0 else 1).
Proof.
  rewrite !status_total_alt, statusCounts_snoc. unfold assign, next_count.
  destruct (ket p =? "__proto__")%string eqn:Eq.
  - apply String.eqb_eq in Eq. rewrite Eq. simpl. lia.
  - pose proof (total_insert (statusCounts ps) (ket p)) as T.
    destruct (statusCounts ps !! ket p) as [old|] eqn:Hold.
    + pose proof (statusCounts_shape _ _ _ Hold) as Hs.
      destruct (inherited (ket p)).
      * destruct Hs as [i ->]. specialize (T (VText (ket p) (i + 1))).
        set (X := sum_list_with _ (map_to_list (<[_ := _]> _))) in *.
        simpl in T. lia.
      * destruct Hs as [n ->]. specialize (T (VNum (S n + 1))).
        set (X := sum_list_with _ (map_to_list (<[_ := _]> _))) in *.
        simpl in T. lia.
    + destruct (inherited (ket p)).
      * specialize (T (VText (ket p) 1)). simpl in T. lia.
      * specialize (T (VNum 1)). simpl in T. lia.
Qed.

(** The disposition counts add up to the number of records whose
    disposition is not the name of a member of [Object.prototype]. *)
Lemma status_total_counts ps :
  status_total ps = length (List.filter (fun p => negb (inherited (ket p))) ps).
Proof.
  induction ps as [|p ps IH] using rev_ind; [reflexivity |].
  rewrite status_total_snoc, IH, List.filter_app, length_app. simpl.
  destruct (inherited (ket p)); reflexivity.
Qed.

End CategoryCounts.

Lemma filter_none_length {A : Type} (f : A -> bool) (l : list A) :
  (forall x, x ∈ l -> f x = false) -> length (List.filter f l) = 0.
Proof.
  induction l as [|x l IH]; intros H; simpl; [reflexivity |].
  rewrite (H x) by apply list_elem_of_here. apply IH.
  intros y Hy. apply H. now apply list_elem_of_further.
Qed.

(** C4. The priority chart always has the five entries P1..P5, in that
    order; a priority that no record has is listed with count 0; when every
    record's priority is one of the five, the five counts add up to the size
    of the collection.  The disposition chart has entries only for
    dispositions that occur in the collection, none of them with count 0: a
    disposition that does not occur has no entry, and one that occurs has
    one (the key [__proto__] apart, which a plain object cannot hold). *)
Theorem category_counts (patients : list PatientRecord) :
  (map name (priorityData patients) = ["P1"; "P2"; "P3"; "P4"; "P5"]
   /\ (forall k, k ∈ priorities -> (forall p, p ∈ patients -> prioritas p <> k) ->
       mkPoint k 0 ∈ priorityData patients)
   /\ ((forall p, p ∈ patients -> prioritas p ∈ priorities) ->
       priority_total patients = length patients))
  /\ (forall pt, pt ∈ statusData patients ->
      observed patients (name pt) /\ value pt <> VNum 0)
  /\ (forall k, ~ observed patients k ->
      forall pt, pt ∈ statusData patients -> name pt <> k)
  /\ (forall p, p ∈ patients -> ket p <> "__proto__" ->
      exists pt, pt ∈ statusData patients /\ name pt = ket p).
Proof.
  assert (Hobs : forall pt, pt ∈ statusData patients ->
            observed patients (name pt) /\ value pt <> VNum 0).
  { intros pt Hpt. unfold statusData in Hpt.
    apply list_elem_of_fmap in Hpt as [[k v] [-> Hkv]].
    apply elem_of_map_to_list in Hkv. simpl. split.
    - eapply statusCounts_observed, Hkv.
    - apply statusCounts_shape in Hkv.
      destruct (inherited k); destruct Hkv as [? ->]; discriminate. }
  repeat split.
  - intros k Hk Hnone. unfold priorityData.
    apply (list_elem_of_fmap_2' _ _ k); [exact Hk |].
    f_equal. symmetry. apply filter_none_length.
    intros p Hp. apply String.eqb_neq. now apply Hnone.
  - intros Hall. rewrite priority_total_valid. f_equal. apply filter_all.
    intros p Hp. now apply in_priorities_true, Hall.
  - now apply Hobs.
  - now apply Hobs.
  - intros k Hk pt Hpt <-. apply Hk. now apply Hobs.
  - intros p Hp Hk. destruct (statusCounts_present patients p Hp Hk) as [v Hv].
    exists (mkPoint (ket p) v). split; [| reflexivity].
    unfold statusData. apply (list_elem_of_fmap_2' _ _ (ket p, v)); [| reflexivity].
    now apply elem_of_map_to_list.
Qed.

Lemma category_counts_witness :
  priority_total [budi; with_ket budi "Rawat Jalan"] = 2
  /\ mkPoint "P3" 0 ∈ priorityData [budi; with_ket budi "Rawat Jalan"].
Proof.
  destruct (category_counts [budi; with_ket budi "Rawat Jalan"]) as [[_ [Hz Hs]] _].
  split.
  - apply Hs. intros p Hp. apply list_elem_of_In in Hp. simpl in Hp.
    destruct Hp as [<-|[<-|[]]]; vm_compute; apply list_elem_of_here.
  - apply Hz.
    + apply list_elem_of_In. simpl. tauto.
    + intros p Hp. apply list_elem_of_In in Hp. simpl in Hp.
      destruct Hp as [<-|[<-|[]]]; vm_compute; discriminate.
Defined.

(** C10, at the input on which it fails.  The disposition counts add up to
    the number of records whose disposition is not the name of a member of
    [Object.prototype].  A record whose disposition is [__proto__] leaves no
    entry in the chart, so the counts of a collection of one such record add
    up to 0, not to 1; a record whose disposition is [constructor] leaves an
    entry whose value is a text, not a count. *)
Theorem status_counts_lose_prototype_keys :
  (forall patients,
     status_total patients
     = length (List.filter (fun p => negb (inherited (ket p))) patients))
  /\ statusData [with_ket budi "__proto__"] = []
  /\ status_total [with_ket budi "__proto__"] = 0
  /\ length [with_ket budi "__proto__"] = 1
  /\ statusData [with_ket budi "constructor"]
     = [mkPoint "constructor" (VText "constructor" 1)]
  /\ status_total [budi; with_ket budi "__proto__"; with_ket budi "Rawat Jalan"] = 2.
Proof.
  split; [apply status_total_counts |].
  vm_compute. repeat split.
Qed.

(** C2, at the input on which it fails.  The data-table view matches a
    record when the lower-cased query is part of the lower-cased name,
    record number or attending physician.  The reports view matches the name
    that way, but searches the record number as typed: the query "rm-001"
    is, lower-cased, a part of the lower-cased record number "RM-001", yet
    the record is left out.  The data-table view keeps it. *)
Theorem report_search_misses_record_number_case :
  (forall query p, matchesSearch_table query p = true <-> text_criterion_table query p)
  /\ (forall query p, matchesSearch_report query p = true <-> text_criterion_report query p)
  /\ ci_match "rm-001" (noKib budi)
  /\ matchesSearch_report "rm-001" budi = false
  /\ filteredPatients [budi] EmptyString EmptyString "rm-001" = []
  /\ filteredData [budi] "rm-001" EmptyString EmptyString = [budi].
Proof.
  split; [exact matchesSearch_table_iff |].
  split; [exact matchesSearch_report_iff |].
  split; [| vm_compute; repeat split].
  exists EmptyString, EmptyString. reflexivity.
Qed.

Section CrudProperties.

Context {Remote : Type}.
Variable deletePatientFromDB : string -> Remote -> outcome unit * Remote.
Variable updatePatientInDB : PatientRecord -> Remote -> outcome bool * Remote.
Variable addPatientToDB : PatientRecord -> Remote -> outcome (option string) * Remote.

Lemma since_app (w w' : World Remote) (evs : list Event) :
  trace w' = (trace w ++ evs)%list -> since w w' = evs.
Proof. intros H. unfold since. rewrite H. apply drop_app_length. Qed.

Lemma handleDelete_trace (w : World Remote) (target : string) :
  let w' := (handleDelete deletePatientFromDB true target w).2 in
  match (deletePatientFromDB target (remote w)).1 with
  | Resolved _ =>
      trace w' = (trace w ++
                  [RemoteDelete target (Resolved tt);
                   OnUpdate (List.filter (fun item => negb (id item =? target)%string)
                                         (patientData w));
                   Notify "Data pasien berhasil dihapus."])%list
      /\ patientData w'
         = List.filter (fun item => negb (id item =? target)%string) (patientData w)
  | Rejected =>
      trace w' = (trace w ++
                  [RemoteDelete target Rejected; ConsoleError;
                   Notify "Gagal menghapus data."])%list
      /\ patientData w' = patientData w
  end.
Proof.
  unfold handleDelete, try_catch, bind, await, onUpdate, onNotification, emit,
    setSelectedIds, ret.
  destruct (deletePatientFromDB target (remote w)) as [[[]|] r'] eqn:E; simpl.
  - destruct (bool_decide (target ∈ selectedIds w)); simpl;
      rewrite <- !app_assoc; split; reflexivity.
  - rewrite <- !app_assoc; split; reflexivity.
Qed.

Lemma handleSaveForm_edit_trace (w : World Remote) (record : PatientRecord) :
  is_Some (editingItem w) ->
  let w' := (handleSaveForm updatePatientInDB addPatientToDB record w).2 in
  let newData := map (fun item => if (id item =? id record)%string then record else item)
                     (patientData w) in
  match (updatePatientInDB record (remote w)).1 with
  | Resolved found =>
      trace w' = (trace w ++
                  [RemoteUpdate record (Resolved found); OnUpdate newData;
                   Notify "Perubahan data berhasil disimpan ke Sheet."])%list
      /\ patientData w' = newData
  | Rejected =>
      trace w' = (trace w ++
                  [RemoteUpdate record Rejected; ConsoleError;
                   Notify "Gagal menyimpan data ke database."])%list
      /\ patientData w' = patientData w
  end.
Proof.
  intros [e He].
  unfold handleSaveForm, try_catch, bind, await, onUpdate, onNotification, emit,
    setIsFormOpen, setEditingItem, ret.
  rewrite He.
  destruct (updatePatientInDB record (remote w)) as [[found|] r'] eqn:E; simpl;
    rewrite <- !app_assoc; split; reflexivity.
Qed.

Lemma import_loop_cons (item : PatientRecord) (rest added : list PatientRecord)
    (w : World Remote) :
  import_loop addPatientToDB (item :: rest) added w
  = match addPatientToDB item (remote w) with
    | (Resolved newId, r') =>
        import_loop addPatientToDB rest
          (if truthy_id newId
           then (added ++ [with_id item (default EmptyString newId)])%list
           else added)
          (mkWorld r' (patientData w) (selectedIds w) (isFormOpen w) (editingItem w)
                   (trace w ++ [RemoteCreate item (Resolved newId)]))
    | (Rejected, r') =>
        (Rejected,
         mkWorld r' (patientData w) (selectedIds w) (isFormOpen w) (editingItem w)
                 (trace w ++ [RemoteCreate item Rejected]))
    end.
Proof.
  simpl. unfold bind, await.
  destruct (addPatientToDB item (remote w)) as [[newId|] r']; reflexivity.
Qed.

Lemma import_loop_spec (items : list PatientRecord) :
  forall (added : list PatientRecord) (w : World Remote),
  let res := (import_loop addPatientToDB items added w).1 in
  let w' := (import_loop addPatientToDB items added w).2 in
  exists evs,
    trace w' = (trace w ++ evs)%list
    /\ patientData w' = patientData w
    /\ notified evs = []
    /\ submitted evs `prefix_of` items
    /\ match res with
       | Resolved added' =>
           submitted evs = items
           /\ length added' = length added + identities evs
       | Rejected => identities evs < length (submitted evs)
       end.
Proof.
  induction items as [|item rest IH]; intros added w; cbv zeta.
  - exists []. simpl. rewrite app_nil_r. repeat split; auto; apply prefix_nil.
  - rewrite import_loop_cons.
    destruct (addPatientToDB item (remote w)) as [[newId|] r'] eqn:E.
    + match goal with
      | |- context [import_loop _ rest ?a ?w1] =>
          destruct (IH a w1) as [evs [Ht [Hd [Hn [Hp Hr]]]]]
      end.
      cbv zeta in Ht, Hd, Hr.
      match type of Hd with
      | patientData (?run).2 = _ => destruct run as [res w1]
      end.
      simpl in Ht, Hd, Hr |- *.
      exists (RemoteCreate item (Resolved newId) :: evs).
      rewrite Ht, Hd, <- app_assoc. simpl.
      split; [reflexivity |]. split; [reflexivity |]. split; [exact Hn |].
      split; [now apply prefix_cons |].
      destruct res as [added'|].
      * destruct Hr as [-> Hl]. split; [reflexivity |]. rewrite Hl.
        unfold identities. simpl.
        destruct (truthy_id newId); simpl; rewrite ?length_app; simpl; lia.
      * unfold identities in *. simpl. destruct (truthy_id newId); simpl; lia.
    + exists [RemoteCreate item Rejected]. simpl.
      repeat split; auto; apply prefix_cons, prefix_nil.
Qed.

Lemma fresh_items_filter (data importedData : list PatientRecord) :
  List.filter
    (fun d => negb (bool_decide (noKib d ∈ (list_to_set (map noKib data) : gset string))))
    importedData
  = fresh_items data importedData.
Proof.
  unfold fresh_items. apply List.filter_ext. intros d.
  rewrite bool_decide_not. f_equal. apply bool_decide_ext.
  apply elem_of_list_to_set.
Qed.

Lemma submitted_app (l1 l2 : list Event) :
  submitted (l1 ++ l2) = (submitted l1 ++ submitted l2)%list.
Proof. apply omap_app. Qed.

Lemma notified_app (l1 l2 : list Event) :
  notified (l1 ++ l2) = (notified l1 ++ notified l2)%list.
Proof. apply omap_app. Qed.

Lemma identities_app (l1 l2 : list Event) :
  identities (l1 ++ l2) = identities l1 + identities l2.
Proof. unfold identities. now rewrite List.filter_app, length_app. Qed.

Lemma handleFileImport_eq (w : World Remote) (importedData : list PatientRecord) :
  handleFileImport addPatientToDB (Resolved (ArrayOf importedData)) true w
  = if (length (fresh_items (patientData w) importedData) =? 0)%nat
    then (Resolved tt,
          mkWorld (remote w) (patientData w) (selectedIds w) (isFormOpen w)
                  (editingItem w)
                  (trace w ++ [Notify "Semua data sudah ada di database."]))
    else match import_loop addPatientToDB (fresh_items (patientData w) importedData) [] w with
         | (Resolved addedItems, w1) =>
             (Resolved tt,
              mkWorld (remote w1) (addedItems ++ patientData w) (selectedIds w1)
                      (isFormOpen w1) (editingItem w1)
                      ((trace w1 ++ [OnUpdate (addedItems ++ patientData w)])
                       ++ [Notify (import_message (length addedItems))]))
         | (Rejected, w1) =>
             (Resolved tt,
              mkWorld (remote w1) (patientData w1) (selectedIds w1)
                      (isFormOpen w1) (editingItem w1)
                      (trace w1 ++ [Alert "Gagal membaca file atau koneksi error."]))
         end.
Proof.
  unfold handleFileImport, try_catch. unfold bind at 1.
  rewrite fresh_items_filter.
  destruct (length (fresh_items (patientData w) importedData) =? 0)%nat; [reflexivity |].
  unfold bind at 1.
  destruct (import_loop addPatientToDB (fresh_items (patientData w) importedData) [] w)
    as [[added|] w1]; reflexivity.
Qed.

Lemma handleFileImport_run (w : World Remote) (importedData : list PatientRecord) :
  let data := patientData w in
  let w' := (handleFileImport addPatientToDB (Resolved (ArrayOf importedData)) true w).2 in
  let newItems := fresh_items data importedData in
  exists events,
    trace w' = (trace w ++ events)%list
    /\ submitted events `prefix_of` newItems
    /\ (notified events = [] /\ identities events < length (submitted events)
        /\ patientData w' = data
        \/ notified events = ["Semua data sudah ada di database."] /\ newItems = []
        \/ notified events = [import_message (identities events)]
           /\ submitted events = newItems
           /\ length (patientData w') = identities events + length data).
Proof.
  cbv zeta. rewrite handleFileImport_eq.
  destruct (length (fresh_items (patientData w) importedData) =? 0)%nat eqn:Hlen.
  - apply Nat.eqb_eq in Hlen. apply nil_length_inv in Hlen.
    exists [Notify "Semua data sudah ada di database."]. simpl.
    split; [reflexivity |]. split; [apply prefix_nil |]. right; left. now split.
  - destruct (import_loop_spec (fresh_items (patientData w) importedData) [] w)
      as [evs [Ht [Hd [Hn [Hp Hr]]]]].
    cbv zeta in Ht, Hd, Hr.
    destruct (import_loop addPatientToDB (fresh_items (patientData w) importedData) [] w)
      as [[added|] w1]; simpl in Ht, Hd, Hr |- *.
    + destruct Hr as [Hs Hl].
      exists (evs ++ [OnUpdate (added ++ patientData w);
                      Notify (import_message (length added))])%list.
      rewrite Ht, <- !app_assoc. simpl. split; [reflexivity |].
      rewrite submitted_app, notified_app, identities_app, Hn. simpl.
      rewrite app_nil_r, Nat.add_0_r, Hs.
      split; [reflexivity |]. right; right.
      rewrite Hl, length_app. repeat split; lia.
    + exists (evs ++ [Alert "Gagal membaca file atau koneksi error."])%list.
      rewrite Ht, <- app_assoc. split; [reflexivity |].
      rewrite submitted_app, notified_app, identities_app, Hn. simpl.
      rewrite app_nil_r, Nat.add_0_r.
      split; [exact Hp |]. left. repeat split; assumption.
Qed.


(** C5. Update and delete call the store first and touch the local
    collection only after the call has succeeded: the first thing either
    handler does is the remote call, the collection is handed to [onUpdate]
    only when that call resolved, and when it rejected the local collection
    is what it was before. *)
Theorem update_delete_leave_local_on_failure
    (w : World Remote) (target : string) (record : PatientRecord) :
  let wd := (handleDelete deletePatientFromDB true target w).2 in
  let wu := (handleSaveForm updatePatientInDB addPatientToDB record w).2 in
  let deleted := (deletePatientFromDB target (remote w)).1 in
  let updated := (updatePatientInDB record (remote w)).1 in
  (exists rest, since w wd = RemoteDelete target deleted :: rest
     /\ ((exists newData, OnUpdate newData ∈ rest) -> deleted = Resolved tt)
     /\ (deleted = Rejected -> patientData wd = patientData w))
  /\ (is_Some (editingItem w) ->
      exists rest, since w wu = RemoteUpdate record updated :: rest
        /\ ((exists newData, OnUpdate newData ∈ rest) -> updated <> Rejected)
        /\ (updated = Rejected -> patientData wu = patientData w)).
Proof.
  cbv zeta. split.
  - pose proof (handleDelete_trace w target) as H. cbv zeta in H.
    destruct (deletePatientFromDB target (remote w)).1 as [[]|];
      destruct H as [Ht Hd]; apply since_app in Ht; rewrite Ht; eexists;
      (split; [reflexivity |]); split; try easy.
    intros [newData Hin]. exfalso.
    apply list_elem_of_In in Hin. simpl in Hin. intuition discriminate.
  - intros He. pose proof (handleSaveForm_edit_trace w record He) as H. cbv zeta in H.
    destruct (updatePatientInDB record (remote w)).1 as [found|];
      destruct H as [Ht Hd]; apply since_app in Ht; rewrite Ht; eexists;
      (split; [reflexivity |]); split; try easy.
    intros [newData Hin]. exfalso.
    apply list_elem_of_In in Hin. simpl in Hin. intuition discriminate.
Qed.

(** C7. The id alone decides what update and delete touch.  A successful
    update puts the new record at every position whose record has its id and
    leaves every other position as it was; a successful delete keeps exactly
    the records with another id, in their order. *)
Theorem update_delete_match_by_id
    (w : World Remote) (target : string) (record : PatientRecord) :
  let wd := (handleDelete deletePatientFromDB true target w).2 in
  let wu := (handleSaveForm updatePatientInDB addPatientToDB record w).2 in
  (is_Some (editingItem w) ->
   (updatePatientInDB record (remote w)).1 <> Rejected ->
   length (patientData wu) = length (patientData w)
   /\ forall i item, patientData w !! i = Some item ->
        patientData wu !! i
        = Some (if decide (id item = id record) then record else item))
  /\ ((deletePatientFromDB target (remote w)).1 <> Rejected ->
      exact_subseq (fun item => id item <> target) (patientData w) (patientData wd)).
Proof.
  cbv zeta. split.
  - intros He Hok. pose proof (handleSaveForm_edit_trace w record He) as H. cbv zeta in H.
    destruct (updatePatientInDB record (remote w)).1 as [found|]; [| contradiction].
    destruct H as [_ ->]. split; [apply length_map |].
    intros i item Hi. change (map ?f ?l) with (f <$> l).
    rewrite list_lookup_fmap, Hi. simpl. f_equal.
    destruct (String.eqb_spec (id item) (id record)), (decide (id item = id record));
      congruence.
  - intros Hok. pose proof (handleDelete_trace w target) as H. cbv zeta in H.
    destruct (deletePatientFromDB target (remote w)).1 as [[]|]; [| contradiction].
    destruct H as [_ ->].
    eapply exact_subseq_ext; [| apply filter_exact_subseq].
    intros item. cbv beta. rewrite negb_true_iff. apply String.eqb_neq.
Qed.

End CrudProperties.

Lemma update_delete_leave_local_on_failure_witness :
  patientData (handleDelete unreachable_delete true "id-1"
                 (start_world 0 [budi; siti] None)).2 = [budi; siti]
  /\ patientData (handleSaveForm unreachable_update counting_store
                    (with_ket siti "Rawat Inap")
                    (start_world 0 [budi; siti] (Some siti))).2 = [budi; siti].
Proof.
  split.
  - destruct (update_delete_leave_local_on_failure
                unreachable_delete unreachable_update counting_store
                (start_world 0 [budi; siti] None) "id-1" siti)
      as [[rest [_ [_ H]]] _].
    apply H. reflexivity.
  - destruct (update_delete_leave_local_on_failure
                unreachable_delete unreachable_update counting_store
                (start_world 0 [budi; siti] (Some siti)) "id-1"
                (with_ket siti "Rawat Inap"))
      as [_ Hu].
    destruct Hu as [rest [_ [_ H]]].
    + exists siti. reflexivity.
    + apply H. reflexivity.
Defined.

Lemma update_delete_match_by_id_witness :
  patientData (handleSaveForm obliging_update counting_store
                 (with_ket siti "Rawat Inap")
                 (start_world 0 [budi; siti] (Some siti))).2 !! 1
  = Some (with_ket siti "Rawat Inap")
  /\ exact_subseq (fun item => id item <> "id-1") [budi; siti]
       (patientData (handleDelete obliging_delete true "id-1"
                       (start_world 0 [budi; siti] None)).2).
Proof.
  split.
  - destruct (update_delete_match_by_id obliging_delete obliging_update counting_store
                (start_world 0 [budi; siti] (Some siti)) "id-1"
                (with_ket siti "Rawat Inap")) as [Hu _].
    destruct Hu as [_ H].
    + exists siti. reflexivity.
    + discriminate.
    + apply (H 1 siti). reflexivity.
  - destruct (update_delete_match_by_id obliging_delete obliging_update counting_store
                (start_world 0 [budi; siti] None) "id-1" siti) as [_ Hd].
    apply Hd. discriminate.
Defined.


Section Binary64.

Local Open Scope Z_scope.

















Lemma filter_length_bound {A : Type} (f : A -> bool) (l : list A) :
  (length (List.filter f l) <= length l)%nat.
Proof.
  induction l as [|x l IH]; simpl; [lia |]. destruct (f x); simpl; lia.
Qed.

End Binary64.



(** * Further properties *)

Section FilterAlgebra.

Lemma ascii_compare_N (a b : ascii) :
  Ascii.compare a b = N.compare (N_of_ascii a) (N_of_ascii b).
Proof. reflexivity. Qed.

Lemma leb_trans (a b c : string) :
  String.leb a b = true -> String.leb b c = true -> String.leb a c = true.
Proof.
  unfold String.leb. revert b c.
  induction a as [|x a IH]; intros [|y b] [|z c]; simpl; try congruence.
  rewrite !ascii_compare_N.
  destruct (N.compare_spec (N_of_ascii x) (N_of_ascii y)) as [Hxy|Hxy|Hxy];
    destruct (N.compare_spec (N_of_ascii y) (N_of_ascii z)) as [Hyz|Hyz|Hyz];
    try congruence.
  - rewrite Hxy, Hyz, N.compare_refl. apply IH.
  - rewrite Hxy. apply N.compare_lt_iff in Hyz. now rewrite Hyz.
  - rewrite <- Hyz. apply N.compare_lt_iff in Hxy. now rewrite Hxy.
  - assert (H : (N_of_ascii x < N_of_ascii z)%N) by lia.
    apply N.compare_lt_iff in H. now rewrite H.
Qed.

Lemma includes_empty (s : string) : includes s EmptyString = true.
Proof. destruct s; reflexivity. Qed.



Lemma filter_sublist_impl {A : Type} (f g : A -> bool) (l : list A) :
  (forall x, f x = true -> g x = true) ->
  sublist (List.filter f l) (List.filter g l).
Proof.
  intros H. induction l as [|x l IH]; simpl; [constructor |].
  destruct (f x) eqn:Ef.
  - rewrite (H x Ef). now apply sublist_skip.
  - destruct (g x); [now apply sublist_cons | exact IH].
Qed.

Lemma within_dates_narrows sd ed sd' ed' p :
  narrows sd ed sd' ed' -> within_dates sd' ed' p -> within_dates sd ed p.
Proof.
  unfold narrows, within_dates, str_le. intros [Hs He] [Hs' He']. split.
  - intros Hne. destruct Hs as [->|[Hs1 Hs2]]; [contradiction |].
    eapply leb_trans; [exact Hs2 | now apply Hs'].
  - intros Hne. destruct He as [->|[He1 He2]]; [contradiction |].
    eapply leb_trans; [now apply He' | exact He2].
Qed.

Lemma table_filter_iff q sd ed p :
  matchesSearch_table q p && matchesDate_table sd ed p = true
  <-> text_criterion_table q p /\ within_dates sd ed p.
Proof. now rewrite andb_true_iff, matchesSearch_table_iff, matchesDate_table_iff. Qed.

Lemma report_filter_iff q sd ed p :
  (if truthy sd then js_ge (tanggal p) sd else true)
  && (if truthy ed then js_le (tanggal p) ed else true)
  && matchesSearch_report q p = true
  <-> within_dates sd ed p /\ text_criterion_report q p.
Proof. now rewrite andb_true_iff, matchesSearch_report_iff, report_dates_iff. Qed.

End FilterAlgebra.

(** X1. With no criterion set (empty query, no date bound) both filters show
    the whole collection. *)
Theorem filter_without_criteria (data : list PatientRecord) :
  filteredData data EmptyString EmptyString EmptyString = data
  /\ filteredPatients data EmptyString EmptyString EmptyString = data.
Proof.
  unfold filteredData, filteredPatients. split; apply filter_all; intros p _.
  - unfold matchesSearch_table. simpl. now rewrite !includes_empty.
  - reflexivity.
Qed.

(** X2. When both bounds are set and the end date lies before the start
    date, both filters show nothing, whatever the query. *)
Theorem filter_inverted_range_empty
    (data : list PatientRecord) (query startDate endDate : string) :
  startDate <> EmptyString -> endDate <> EmptyString ->
  String.ltb endDate startDate = true ->
  filteredData data query startDate endDate = []
  /\ filteredPatients data startDate endDate query = [].
Proof.
  intros Hs He Hlt.
  assert (Hno : forall p, ~ within_dates startDate endDate p).
  { intros p [H1 H2]. specialize (H1 Hs). specialize (H2 He).
    pose proof (leb_trans _ _ _ H1 H2) as H.
    apply ltb_false_leb in H. congruence. }
  split.
  - unfold filteredData. apply length_zero_iff_nil, filter_none_length. intros p _.
    apply not_true_is_false. intros H.
    apply table_filter_iff in H. now apply (Hno p).
  - unfold filteredPatients. apply length_zero_iff_nil, filter_none_length. intros p _.
    apply not_true_is_false. intros H. cbv zeta in H.
    apply report_filter_iff in H. now apply (Hno p).
Qed.

Lemma filter_inverted_range_empty_witness :
  filteredData [budi; siti] EmptyString "2024-01-10" "2024-01-05" = []
  /\ filteredPatients [budi; siti] "2024-01-10" "2024-01-05" EmptyString = [].
Proof.
  apply (filter_inverted_range_empty [budi; siti] EmptyString "2024-01-10" "2024-01-05");
    [discriminate | discriminate | reflexivity].
Defined.

(** X3. Tightening the date range never brings a record in: what either
    filter shows for bounds within a wider pair of bounds is, in order, part
    of what it shows for the wider pair. *)
Theorem filter_narrowing
    (data : list PatientRecord) (query startDate endDate startDate' endDate' : string) :
  narrows startDate endDate startDate' endDate' ->
  sublist (filteredData data query startDate' endDate')
          (filteredData data query startDate endDate)
  /\ sublist (filteredPatients data startDate' endDate' query)
             (filteredPatients data startDate endDate query).
Proof.
  intros Hn. unfold filteredData, filteredPatients.
  split; apply filter_sublist_impl; intros p H.
  - apply table_filter_iff in H. apply table_filter_iff.
    destruct H as [Ht Hd]. split; [exact Ht |]. eapply within_dates_narrows; eassumption.
  - cbv zeta in H |- *. apply report_filter_iff in H. apply report_filter_iff.
    destruct H as [Hd Ht]. split; [| exact Ht]. eapply within_dates_narrows; eassumption.
Qed.

Lemma filter_narrowing_witness :
  sublist (filteredData [budi; siti] EmptyString "2024-01-08" "2024-01-08")
          (filteredData [budi; siti] EmptyString "2024-01-01" EmptyString).
Proof.
  apply (filter_narrowing [budi; siti] EmptyString "2024-01-01" EmptyString
           "2024-01-08" "2024-01-08").
  split; [right; split; [discriminate | reflexivity] | left; reflexivity].
Defined.


Section Cards.

Lemma statusCounts_lookup ps k :
  inherited k = false ->
  statusCounts ps !! k
  = if (ket_count ps k =? 0)%nat then None else Some (VNum (ket_count ps k)).
Proof.
  intros Hk.
  assert (Hp : k <> "__proto__") by (intros ->; discriminate).
  induction ps as [|p ps IH] using rev_ind; [reflexivity |].
  rewrite statusCounts_snoc. unfold ket_count in *.
  rewrite List.filter_app, length_app. simpl. unfold assign.
  destruct (ket p =? "__proto__")%string eqn:Eq.
  - apply String.eqb_eq in Eq.
    destruct (String.eqb_spec (ket p) k) as [E|E]; [congruence |].
    simpl. rewrite Nat.add_0_r. exact IH.
  - rewrite lookup_insert.
    destruct (String.eqb_spec (ket p) k) as [E|E].
    + rewrite decide_True by exact E. unfold next_count. rewrite Eq, E, IH, Hk.
      simpl length.
      destruct (length (List.filter (fun p0 => (ket p0 =? k)%string) ps)) as [|n];
        simpl; [reflexivity |].
      replace (n + 1) with (S n) by lia. reflexivity.
    + rewrite decide_False by exact E. simpl. rewrite Nat.add_0_r. exact IH.
Qed.

Lemma indicator_sum (z : Z) (a n : nat) :
  sum_list_with (fun h => if decide (Some z = Some (Z.of_nat h)) then 1 else 0) (seq a n)
  = if ((Z.of_nat a <=? z) && (z <? Z.of_nat (a + n)))%Z then 1 else 0.
Proof.
  revert a; induction n as [|n IH]; intros a; simpl.
  - destruct (Z.of_nat a <=? z)%Z eqn:E1, (z <? Z.of_nat (a + 0))%Z eqn:E2;
      try reflexivity. apply Z.leb_le in E1. apply Z.ltb_lt in E2. lia.
  - rewrite IH.
    destruct (decide (Some z = Some (Z.of_nat a))) as [E|E].
    + injection E as ->.
      replace ((Z.of_nat (S a) <=? Z.of_nat a)%Z) with false
        by (symmetry; apply Z.leb_gt; lia).
      replace ((Z.of_nat a <=? Z.of_nat a)%Z) with true
        by (symmetry; apply Z.leb_le; lia).
      replace ((Z.of_nat a <? Z.of_nat (a + S n))%Z) with true
        by (symmetry; apply Z.ltb_lt; lia).
      reflexivity.
    + assert (z <> Z.of_nat a) by congruence.
      replace (a + S n) with (S a + n) by lia. simpl plus.
      destruct (Z.of_nat (S a) <=? z)%Z eqn:E1, (Z.of_nat a <=? z)%Z eqn:E2;
        simpl; try reflexivity;
        try apply Z.leb_le in E1; try apply Z.leb_gt in E1;
        try apply Z.leb_le in E2; try apply Z.leb_gt in E2; lia.
Qed.

Lemma window_sum_cons p ps :
  sum_list_with (hour_count (p :: ps)) window
  = (if in_window p then 1 else 0) + sum_list_with (hour_count ps) window.
Proof.
  unfold window, in_window.
  assert (H : forall l,
    sum_list_with (hour_count (p :: ps)) l
    = sum_list_with (fun h => if decide (arrival_hour p = Some (Z.of_nat h)) then 1 else 0) l
      + sum_list_with (hour_count ps) l).
  { induction l as [|h l IHl]; simpl; [reflexivity |].
    rewrite IHl, hour_count_cons. lia. }
  rewrite H. f_equal.
  destruct (arrival_hour p) as [z|].
  - rewrite indicator_sum.
    destruct (Z.leb_spec 6 z) as [A|A], (Z.leb_spec z 22) as [B|B],
      (Z.leb_spec (Z.of_nat 6) z) as [C|C],
      (Z.ltb_spec z (Z.of_nat (6 + 17))) as [D|D]; simpl; try reflexivity; lia.
  - clear H. induction (seq 6 17) as [|h l IHl]; simpl; [reflexivity |].
    destruct (decide (None = Some (Z.of_nat h))); [discriminate | exact IHl].
Qed.

Lemma specialists_insert before after p :
  specialists (before ++ p :: after)
  = (if names_specialist p then {[dokterSpesialis p]} else ∅) ∪ specialists (before ++ after).
Proof.
  unfold specialists, names_specialist.
  rewrite !map_app, !List.filter_app. simpl.
  destruct (truthy (dokterSpesialis p) && negb (dokterSpesialis p =? "-")%string);
    simpl; rewrite !list_to_set_app_L, ?list_to_set_cons;
    apply set_eq; intros x; rewrite !elem_of_union, ?elem_of_empty; tauto.
Qed.

Lemma size_list_to_set_le (l : list string) :
  size (list_to_set l : gset string) <= length l.
Proof.
  induction l as [|x l IH].
  - change (size (∅ : gset string) <= 0). now rewrite size_empty.
  - rewrite list_to_set_cons, size_union_alt, size_singleton. simpl length.
    assert (H : size ((list_to_set l : gset string) ∖ {[x]})
                <= size (list_to_set l : gset string)).
    { apply subseteq_size. intros y Hy. apply elem_of_difference in Hy. tauto. }
    lia.
Qed.

End Cards.

Lemma filteredData_all (data : list PatientRecord) :
  filteredData data EmptyString EmptyString EmptyString = data.
Proof.
  unfold filteredData. apply filter_all; intros p _.
  unfold matchesSearch_table. simpl. now rewrite !includes_empty.
Qed.

(** X5. The four figures in the table's header are counts over the rows the
    filter shows: none of the three partial counts exceeds the total, the
    total never exceeds the size of the collection, and with no criterion
    set the total is the size of the collection. *)
Theorem table_stats_bounds
    (data : list PatientRecord) (query startDate endDate : string) :
  let s := stats (filteredData data query startDate endDate) in
  emergency s <= total s /\ inpatient s <= total s /\ waiting s <= total s
  /\ total s <= length data
  /\ total (stats (filteredData data EmptyString EmptyString EmptyString)) = length data.
Proof.
  cbv zeta. unfold stats. simpl.
  split; [apply filter_length_bound |].
  split; [apply filter_length_bound |].
  split; [apply filter_length_bound |].
  split; [unfold filteredData; apply filter_length_bound |].
  now rewrite filteredData_all.
Qed.

(** X6. The cards and the charts agree: the P1 entry of the priority chart
    is the number on the "Gawat Darurat" card, and for every disposition
    that is not the name of a member of [Object.prototype] the disposition
    chart has no entry when no record has it and otherwise an entry with
    the number of records that have it; so the "Rawat Inap" card and the
    chart's "Rawat Inap" entry show the same number. *)
Theorem cards_agree_with_charts (patients : list PatientRecord) :
  mkPoint "P1" (criticalPatients patients) ∈ priorityData patients
  /\ (forall k, inherited k = false ->
      statusCounts patients !! k
      = if (ket_count patients k =? 0)%nat then None
        else Some (VNum (ket_count patients k)))
  /\ (0 < rawatInap patients ->
      mkPoint "Rawat Inap" (VNum (rawatInap patients)) ∈ statusData patients).
Proof.
  split; [| split].
  - unfold priorityData, priorities. simpl. apply list_elem_of_here.
  - intros k Hk. now apply statusCounts_lookup.
  - intros Hpos. unfold statusData.
    apply (list_elem_of_fmap_2' _ _ ("Rawat Inap", VNum (rawatInap patients)));
      [| reflexivity].
    apply elem_of_map_to_list.
    rewrite (statusCounts_lookup patients "Rawat Inap" eq_refl).
    change (ket_count patients "Rawat Inap") with (rawatInap patients).
    destruct (rawatInap patients); [lia | reflexivity].
Qed.

Lemma cards_agree_with_charts_witness :
  mkPoint "Rawat Inap" (VNum 1) ∈ statusData [budi; siti]
  /\ statusCounts [budi; siti] !! "Dirujuk" = None.
Proof.
  split.
  - apply (cards_agree_with_charts [budi; siti]). vm_compute. lia.
  - apply (cards_agree_with_charts [budi; siti]). reflexivity.
Defined.

(** X7. Inpatient and outpatient are counted apart: in any collection the
    "Rawat Inap" and "Rawat Jalan" counts together, and the P1 count alone,
    stay within the number of records. *)
Theorem card_counts_within_total (patients : list PatientRecord) :
  rawatInap patients + rawatJalan patients <= length patients
  /\ criticalPatients patients <= length patients.
Proof.
  split; [| apply filter_length_bound].
  unfold rawatInap, rawatJalan.
  induction patients as [|p ps IH]; simpl; [lia |].
  destruct (String.eqb_spec (ket p) "Rawat Inap") as [E|E];
    destruct (String.eqb_spec (ket p) "Rawat Jalan") as [E'|E']; simpl; try lia.
  congruence.
Qed.

(** X8. Every point of the arrival chart carries a number, and the numbers
    of the chart add up to the number of records whose arrival hour lies
    between 6 and 22: a record that arrived outside those hours, or whose
    arrival time gives no hour, is in the collection but not on the chart. *)
Theorem arrival_chart_total (patients : list PatientRecord) :
  Forall (fun pt => exists n, Trend.pasien pt = JNum n) (arrivalTrendData patients)
  /\ sum_list_with (fun pt => pasien_count (Trend.pasien pt)) (arrivalTrendData patients)
     = length (List.filter in_window patients)
  /\ sum_list_with (fun pt => pasien_count (Trend.pasien pt)) (arrivalTrendData patients)
     <= length patients.
Proof.
  rewrite chart_counts.
  assert (Hsum : sum_list_with (fun pt => pasien_count (Trend.pasien pt))
                   (map (fun h => Trend.mk (pretty h ++ ":00") (JNum (hour_count patients h)))
                        window)
                 = length (List.filter in_window patients)).
  { change (map ?f ?l) with (f <$> l). rewrite sum_list_with_fmap.
    transitivity (sum_list_with (hour_count patients) window); [reflexivity |].
    induction patients as [|p ps IH]; [reflexivity |].
    rewrite window_sum_cons, IH. simpl List.filter.
    now destruct (in_window p). }
  split; [| split].
  - apply Forall_forall. intros pt Hpt.
    apply list_elem_of_In, in_map_iff in Hpt as [h [<- _]]. eauto.
  - exact Hsum.
  - rewrite Hsum. apply filter_length_bound.
Qed.

(** X9. The "Jenis Spesialis" card counts names, not records: a record
    whose specialist is empty, the sentinel "-", or a name another record
    already carries leaves the number as it is, and a record with a new
    name raises it by one; the number never exceeds the number of records. *)
Theorem specialists_counted_once (before after : list PatientRecord) (p : PatientRecord) :
  totalSpecialists (before ++ p :: after)
  = (if names_specialist p
        && negb (bool_decide (dokterSpesialis p ∈ specialists (before ++ after)))
     then 1 else 0)
    + totalSpecialists (before ++ after)
  /\ totalSpecialists (before ++ after) <= length (before ++ after).
Proof.
  split.
  - unfold totalSpecialists. rewrite specialists_insert.
    destruct (names_specialist p); simpl.
    + destruct (bool_decide_reflect (dokterSpesialis p ∈ specialists (before ++ after)))
        as [Hin|Hout]; simpl.
      * f_equal. apply subseteq_union_1_L. now apply singleton_subseteq_l.
      * rewrite size_union by (now apply disjoint_singleton_l).
        now rewrite size_singleton.
    + now rewrite (left_id_L ∅ (∪)).
  - unfold totalSpecialists, specialists.
    etransitivity; [apply size_list_to_set_le |].
    etransitivity; [apply filter_length_bound |].
    now rewrite length_map.
Qed.

Section Selection.

Lemma forallb_selected (rows : list PatientRecord) (s : gset string) :
  forallb (fun item => bool_decide (id item ∈ s)) rows = true
  <-> forall item, item ∈ rows -> id item ∈ s.
Proof.
  rewrite forallb_forall. split; intros H item Hin.
  - apply list_elem_of_In in Hin. specialize (H item Hin).
    now apply bool_decide_eq_true in H.
  - apply list_elem_of_In in Hin. specialize (H item Hin).
    now apply bool_decide_eq_true.
Qed.

Lemma elem_of_ids (rows : list PatientRecord) (x : string) :
  x ∈ (list_to_set (map id rows) : gset string) <-> exists item, item ∈ rows /\ id item = x.
Proof.
  rewrite elem_of_list_to_set. change (map id rows) with (id <$> rows).
  rewrite list_elem_of_fmap. split; intros [item H]; exists item; intuition congruence.
Qed.




End Selection.

(** X10. Ticking a row's box toggles that row's id and nothing else:
    afterwards an id is selected exactly when it was selected before and is
    another id, or is this id and was not selected; ticking the same box
    twice restores the selection, and ticking two boxes gives the same
    selection in either order. *)
Theorem select_one_toggles (selectedIds : gset string) (target other : string) :
  (forall x, x ∈ handleSelectOne selectedIds target
             <-> (x ∈ selectedIds /\ x <> target) \/ (x = target /\ target ∉ selectedIds))
  /\ handleSelectOne (handleSelectOne selectedIds target) target = selectedIds
  /\ handleSelectOne (handleSelectOne selectedIds target) other
     = handleSelectOne (handleSelectOne selectedIds other) target.
Proof.
  assert (Hmem : forall s t x, x ∈ handleSelectOne s t
             <-> (x ∈ s /\ x <> t) \/ (x = t /\ t ∉ s)).
  { intros s t x. unfold handleSelectOne.
    destruct (bool_decide_reflect (t ∈ s)) as [Hin|Hout].
    - rewrite elem_of_difference, elem_of_singleton. tauto.
    - rewrite elem_of_union, elem_of_singleton.
      split; [intros [->|Hx]; [now right | left; split; [exact Hx | congruence]] | tauto]. }
  split; [apply Hmem |]. split.
  - apply set_eq. intros x. rewrite !Hmem.
    destruct (decide (x = target)) as [->|Hne];
      destruct (decide (target ∈ selectedIds)); tauto.
  - apply set_eq. intros x. rewrite !Hmem.
    destruct (decide (x ∈ selectedIds)), (decide (target ∈ selectedIds)),
      (decide (other ∈ selectedIds)), (decide (x = target)), (decide (x = other)),
      (decide (target = other)); subst; try tauto; try contradiction;
      intuition congruence.
Qed.

(** X11. Ticking the header box selects exactly the ids of the rows shown,
    dropping whatever was selected before: the header box then reads "all
    selected" if and only if some row is shown, it is never left
    indeterminate, and it still reads "all selected" for any non-empty part
    of those rows.  Unticking it clears the selection. *)
Theorem select_all_selects_shown (filteredData part : list PatientRecord) :
  let all := handleSelectAll filteredData true in
  (forall x, x ∈ all <-> exists item, item ∈ filteredData /\ id item = x)
  /\ isAllSelected filteredData all = negb (length filteredData =? 0)%nat
  /\ isIndeterminate filteredData all = false
  /\ (sublist part filteredData -> part <> [] -> isAllSelected part all = true)
  /\ handleSelectAll filteredData false = ∅
  /\ isAllSelected filteredData ∅ = false
  /\ isIndeterminate filteredData ∅ = false.
Proof.
  cbv zeta. unfold handleSelectAll.
  assert (Hall : forall rows, sublist rows filteredData ->
            forallb (fun item => bool_decide (id item ∈ (list_to_set (map id filteredData) : gset string))) rows = true).
  { intros rows Hsub. apply forallb_selected. intros item Hin.
    apply elem_of_ids. exists item. split; [| reflexivity].
    eapply elem_of_sublist; eassumption. }
  split; [apply elem_of_ids |]. split; [| split; [| split; [| split; [| split]]]].
  - unfold isAllSelected. rewrite (Hall filteredData) by reflexivity.
    destruct filteredData; reflexivity.
  - unfold isIndeterminate, isAllSelected. rewrite (Hall filteredData) by reflexivity.
    destruct filteredData as [|r rows]; [reflexivity |].
    simpl. now rewrite andb_false_r.
  - intros Hsub Hne. unfold isAllSelected. rewrite (Hall part Hsub).
    destruct part; [contradiction | reflexivity].
  - reflexivity.
  - unfold isAllSelected. destruct filteredData as [|r rows]; [reflexivity |].
    simpl. rewrite bool_decide_eq_false_2; [reflexivity | apply not_elem_of_empty].
  - unfold isIndeterminate. now rewrite size_empty.
Qed.

Lemma select_all_selects_shown_witness :
  isAllSelected [siti] (handleSelectAll [budi; siti] true) = true.
Proof.
  apply (select_all_selects_shown [budi; siti] [siti]).
  - apply sublist_cons. reflexivity.
  - discriminate.
Defined.



Section HandlerProperties.

Context {Remote : Type}.
Variable deletePatientFromDB : string -> Remote -> outcome unit * Remote.
Variable updatePatientInDB : PatientRecord -> Remote -> outcome bool * Remote.
Variable addPatientToDB : PatientRecord -> Remote -> outcome (option string) * Remote.

Lemma difference_absent (s : gset string) (x : string) : x ∉ s -> s = s ∖ {[x]}.
Proof.
  intros H. apply set_eq. intros y. rewrite elem_of_difference, elem_of_singleton.
  split; [intros Hy; split; [exact Hy | congruence] | tauto].
Qed.

Lemma merged_app (l1 l2 : list Event) : merged (l1 ++ l2) = (merged l1 ++ merged l2)%list.
Proof. apply omap_app. Qed.

Lemma import_loop_merged (items : list PatientRecord) :
  forall (added : list PatientRecord) (w : World Remote),
  let res := (import_loop addPatientToDB items added w).1 in
  let w' := (import_loop addPatientToDB items added w).2 in
  exists evs,
    trace w' = (trace w ++ evs)%list
    /\ match res with
       | Resolved added' => added' = (added ++ merged evs)%list
       | Rejected => True
       end.
Proof.
  induction items as [|item rest IH]; intros added w; cbv zeta.
  - exists []. simpl. now rewrite !app_nil_r.
  - rewrite import_loop_cons.
    destruct (addPatientToDB item (remote w)) as [[newId|] r'] eqn:E.
    + match goal with
      | |- context [import_loop _ rest ?a ?w1] =>
          destruct (IH a w1) as [evs [Ht Hr]]
      end.
      cbv zeta in Ht, Hr.
      match type of Ht with
      | trace (?run).2 = _ => destruct run as [res w1]
      end.
      simpl in Ht, Hr |- *.
      exists (RemoteCreate item (Resolved newId) :: evs).
      rewrite Ht, <- app_assoc. split; [reflexivity |].
      destruct res as [added'|]; [| exact I].
      rewrite Hr. unfold merged. simpl.
      destruct (truthy_id newId); simpl; now rewrite <- ?app_assoc.
    + exists [RemoteCreate item Rejected]. simpl. split; [reflexivity | exact I].
Qed.

Lemma identities_le_submitted (evs : list Event) :
  identities evs <= length (submitted evs).
Proof.
  unfold identities, submitted.
  induction evs as [|e evs IH]; csimpl; [lia |].
  destruct e as [| |r [newId|]| | | |]; csimpl; try exact IH.
  - destruct (truthy_id newId); csimpl; lia.
  - lia.
Qed.

Lemma merged_record_numbers (evs : list Event) :
  identities evs = length (submitted evs) ->
  map noKib (merged evs) = map noKib (submitted evs).
Proof.
  unfold identities, submitted, merged.
  induction evs as [|e evs IH]; csimpl; [reflexivity |].
  pose proof (identities_le_submitted evs) as Hle. unfold identities, submitted in Hle.
  destruct e as [| |r [newId|]| | | |]; csimpl; try exact IH.
  - destruct (truthy_id newId); csimpl; intros H.
    + f_equal. apply IH. lia.
    + lia.
  - intros H. lia.
Qed.

Lemma merged_ids (evs : list Event) :
  Forall (fun r => truthy (id r) = true) (merged evs).
Proof.
  unfold merged. induction evs as [|e evs IH]; csimpl; [constructor |].
  destruct e as [| |r [[s|]|]| | | |]; csimpl; try exact IH.
  destruct (truthy s) eqn:Es; csimpl; [| exact IH].
  constructor; [exact Es | exact IH].
Qed.

Lemma handleFileImport_merged (w : World Remote) (importedData : list PatientRecord) :
  let data := patientData w in
  let w' := (handleFileImport addPatientToDB (Resolved (ArrayOf importedData)) true w).2 in
  let newItems := fresh_items data importedData in
  exists events,
    trace w' = (trace w ++ events)%list
    /\ (patientData w' = data
        \/ newItems <> [] /\ submitted events = newItems
           /\ patientData w' = (merged events ++ data)%list).
Proof.
  cbv zeta. rewrite handleFileImport_eq.
  destruct (length (fresh_items (patientData w) importedData) =? 0)%nat eqn:Hlen.
  - exists [Notify "Semua data sudah ada di database."]. simpl. split; [reflexivity | now left].
  - apply Nat.eqb_neq in Hlen.
    destruct (import_loop_spec addPatientToDB (fresh_items (patientData w) importedData) [] w)
      as [evs [Ht [Hd [Hn [Hp Hr]]]]].
    destruct (import_loop_merged (fresh_items (patientData w) importedData) [] w)
      as [evs' [Ht' Hm]].
    cbv zeta in Ht, Hd, Hr, Ht', Hm.
    destruct (import_loop addPatientToDB (fresh_items (patientData w) importedData) [] w)
      as [[added|] w1]; simpl in Ht, Hd, Hr, Ht', Hm |- *.
    + assert (evs' = evs) as -> by (rewrite Ht in Ht'; now apply app_inv_head in Ht').
      destruct Hr as [Hs _]. simpl in Hm. subst added.
      exists (evs ++ [OnUpdate (merged evs ++ patientData w);
                      Notify (import_message (length (merged evs)))])%list.
      rewrite Ht, <- !app_assoc. simpl. split; [reflexivity |]. right.
      rewrite submitted_app, merged_app. simpl. rewrite !app_nil_r.
      repeat split; try assumption.
      intros Hnil. rewrite Hnil in Hlen. now apply Hlen.
    + exists (evs ++ [Alert "Gagal membaca file atau koneksi error."])%list.
      rewrite Ht, <- app_assoc. split; [reflexivity |]. now left.
Qed.

(** X13. Deleting a row also takes its id out of the selection, and leaves
    the rest of the selection alone; when the store rejects the call the
    selection stays as it was.  Answering "no" to the prompt does nothing at
    all.  Deleting from the form does to the collection, the selection and
    the store what deleting from the row does, and in addition closes the
    form, but only when the call has succeeded: after a rejection the form
    stays open on the record. *)
Theorem delete_unselects_and_closes (w : World Remote) (target : string) :
  let wd := (handleDelete deletePatientFromDB true target w).2 in
  let wf := (handleDeleteFromForm deletePatientFromDB target w).2 in
  handleDelete deletePatientFromDB false target w = (Resolved tt, w)
  /\ (patientData wf = patientData wd /\ selectedIds wf = selectedIds wd
      /\ trace wf = trace wd /\ remote wf = remote wd)
  /\ match (deletePatientFromDB target (remote w)).1 with
     | Resolved _ =>
         selectedIds wd = selectedIds w ∖ {[target]}
         /\ isFormOpen wd = isFormOpen w /\ editingItem wd = editingItem w
         /\ isFormOpen wf = false /\ editingItem wf = None
     | Rejected =>
         selectedIds wd = selectedIds w
         /\ isFormOpen wf = isFormOpen w /\ editingItem wf = editingItem w
     end.
Proof.
  cbv zeta. split; [reflexivity |].
  unfold handleDelete, handleDeleteFromForm, try_catch, bind, await, onUpdate,
    onNotification, emit, setSelectedIds, setIsFormOpen, setEditingItem, ret.
  destruct (deletePatientFromDB target (remote w)) as [[[]|] r'] eqn:E; simpl.
  - destruct (bool_decide_reflect (target ∈ selectedIds w)) as [Hin|Hout]; simpl.
    + repeat split.
    + repeat split. now apply difference_absent.
  - repeat split.
Qed.

(** X14. Saving a new record: the store is called once, with the record as
    submitted.  When it comes back with an identity the record is put in
    front of the collection with that identity as its id, the rest of the
    collection follows unchanged, and the form closes.  When it comes back
    without one the collection stays as it was and nothing is notified, yet
    the form closes all the same.  When the call is rejected the collection
    and the form stay as they were and the failure is notified. *)
Theorem create_takes_server_identity (w : World Remote) (record : PatientRecord) :
  editingItem w = None ->
  let w' := (handleSaveForm updatePatientInDB addPatientToDB record w).2 in
  submitted (since w w') = [record]
  /\ match (addPatientToDB record (remote w)).1 with
     | Resolved newId =>
         if truthy_id newId then
           patientData w' = with_id record (default EmptyString newId) :: patientData w
           /\ notified (since w w') = ["Data pasien baru berhasil ditambahkan."]
           /\ isFormOpen w' = false
         else
           patientData w' = patientData w
           /\ notified (since w w') = []
           /\ isFormOpen w' = false
     | Rejected =>
         patientData w' = patientData w
         /\ notified (since w w') = ["Gagal menyimpan data ke database."]
         /\ isFormOpen w' = isFormOpen w /\ editingItem w' = editingItem w
     end.
Proof.
  intros He. cbv zeta.
  unfold handleSaveForm, try_catch, bind, await, onUpdate, onNotification, emit,
    setIsFormOpen, setEditingItem, ret.
  rewrite He.
  destruct (addPatientToDB record (remote w)) as [[newId|] r'] eqn:E; simpl.
  - destruct (truthy_id newId); simpl.
    + rewrite (since_app w _ [RemoteCreate record (Resolved newId);
                              OnUpdate (with_id record (default EmptyString newId)
                                        :: patientData w);
                              Notify "Data pasien baru berhasil ditambahkan."])
        by (simpl; now rewrite <- !app_assoc).
      repeat split.
    + rewrite (since_app w _ [RemoteCreate record (Resolved newId)]) by reflexivity.
      repeat split.
  - rewrite (since_app w _ [RemoteCreate record Rejected; ConsoleError;
                            Notify "Gagal menyimpan data ke database."])
      by (simpl; now rewrite <- !app_assoc).
    repeat split; assumption.
Qed.

(** X15. Saving an edit never changes which ids the collection holds, nor
    their order, whatever the store answers.  When no record of the
    collection has the id of the saved record, a successful save leaves the
    collection exactly as it was and still notifies that the change was
    saved. *)
Theorem update_keeps_ids (w : World Remote) (record : PatientRecord) :
  is_Some (editingItem w) ->
  let w' := (handleSaveForm updatePatientInDB addPatientToDB record w).2 in
  map id (patientData w') = map id (patientData w)
  /\ ((forall item, item ∈ patientData w -> id item <> id record) ->
      (updatePatientInDB record (remote w)).1 <> Rejected ->
      patientData w' = patientData w
      /\ notified (since w w') = ["Perubahan data berhasil disimpan ke Sheet."]).
Proof.
  intros He. cbv zeta.
  pose proof (handleSaveForm_edit_trace updatePatientInDB addPatientToDB w record He) as H.
  cbv zeta in H.
  destruct (updatePatientInDB record (remote w)).1 as [found|]; destruct H as [Ht Hd].
  - split.
    + rewrite Hd, map_map. apply map_ext. intros item.
      destruct (String.eqb_spec (id item) (id record)); congruence.
    + intros Hnone _. apply since_app in Ht. rewrite Ht, Hd. split; [| reflexivity].
      rewrite <- (map_id (patientData w)) at 2. apply map_ext_in. intros item Hin.
      apply list_elem_of_In in Hin.
      destruct (String.eqb_spec (id item) (id record)) as [E|E]; [| reflexivity].
      now apply Hnone in Hin.
  - split; [now rewrite Hd |]. intros _ Hok. contradiction.
Qed.

(** X16. A bulk import never drops or reorders what the collection holds:
    whatever the file, the answer to the prompt and the store, the old
    collection is the tail of the new one, and every record put in front of
    it has a non-empty id.  No creation is sent to the store for a file that
    cannot be parsed, for a value that is not an array, or when the prompt
    is declined; only the unparsable file raises the alert. *)
Theorem import_keeps_collection
    (w : World Remote) (file : outcome parsed) (confirmed : bool) :
  let w' := (handleFileImport addPatientToDB file confirmed w).2 in
  (exists added, patientData w' = (added ++ patientData w)%list
                 /\ Forall (fun r => truthy (id r) = true) added)
  /\ ((forall items, file <> Resolved (ArrayOf items)) \/ confirmed = false ->
      submitted (since w w') = [] /\ remote w' = remote w
      /\ since w w' = match file with
                      | Rejected => [Alert "Gagal membaca file atau koneksi error."]
                      | Resolved _ => []
                      end).
Proof.
  cbv zeta. split.
  - destruct file as [[|items]|]; [exists []; split; [reflexivity | constructor] | |
                                   exists []; split; [reflexivity | constructor]].
    destruct confirmed; [| exists []; split; [reflexivity | constructor]].
    destruct (handleFileImport_merged w items) as [evs [_ [Hd | [_ [_ Hd]]]]];
      cbv zeta in Hd; rewrite Hd.
    + exists []. split; [reflexivity | constructor].
    + exists (merged evs). split; [reflexivity | apply merged_ids].
  - intros Hcase.
    destruct file as [[|items]|].
    + unfold handleFileImport, try_catch, bind, ret, since. simpl.
      rewrite drop_all. now repeat split.
    + destruct Hcase as [Hcase | ->]; [now destruct (Hcase items) |].
      unfold handleFileImport, try_catch, bind, ret, since. simpl.
      rewrite drop_all. now repeat split.
    + unfold handleFileImport, try_catch, bind, emit. simpl.
      rewrite (since_app w _ [Alert "Gagal membaca file atau koneksi error."])
        by reflexivity.
      now repeat split.
Qed.

(** X17. When the first import of a file has come back with an identity for
    every item it submitted, importing the same file again submits nothing:
    every item's record number is now in the collection, the store is not
    called, the collection stays as it is, and the only notification says
    that all the data are already there. *)
Theorem import_again_submits_nothing
    (w : World Remote) (importedData : list PatientRecord) :
  let w1 := (handleFileImport addPatientToDB (Resolved (ArrayOf importedData)) true w).2 in
  let w2 := (handleFileImport addPatientToDB (Resolved (ArrayOf importedData)) true w1).2 in
  identities (since w w1) = length (fresh_items (patientData w) importedData) ->
  fresh_items (patientData w1) importedData = []
  /\ since w1 w2 = [Notify "Semua data sudah ada di database."]
  /\ patientData w2 = patientData w1
  /\ remote w2 = remote w1.
Proof.
  cbv zeta. intros Hid.
  set (w1 := (handleFileImport addPatientToDB (Resolved (ArrayOf importedData)) true w).2)
    in *.
  assert (Hfresh : fresh_items (patientData w1) importedData = []).
  { destruct (handleFileImport_run addPatientToDB w importedData)
      as [evs [Ht [Hp Hcases]]].
    destruct (handleFileImport_merged w importedData) as [evs' [Ht' Hm]].
    cbv zeta in Ht, Hp, Hcases, Ht', Hm. fold w1 in Ht, Hcases, Ht', Hm.
    assert (evs' = evs) as -> by (rewrite Ht in Ht'; now apply app_inv_head in Ht').
    rewrite (since_app _ _ _ Ht) in Hid.
    assert (Hknown : forall d, d ∈ importedData -> noKib d ∈ map noKib (patientData w1)).
    { intros d Hd.
      destruct (decide (noKib d ∈ map noKib (patientData w))) as [Hin|Hout].
      - destruct Hm as [-> | [_ [_ ->]]]; [exact Hin |].
        rewrite map_app. apply elem_of_app. now right.
      - assert (Hf : d ∈ fresh_items (patientData w) importedData).
        { unfold fresh_items. apply list_elem_of_In, filter_In.
          split; [now apply list_elem_of_In | now apply bool_decide_eq_true]. }
        destruct Hcases as [[_ [Hlt _]] | [[_ Hnil] | [_ [Hs Hl]]]].
        + apply prefix_length in Hp. lia.
        + rewrite Hnil in Hf. inversion Hf.
        + destruct Hm as [Hm | [_ [_ ->]]].
          * exfalso. rewrite Hm in Hl.
            assert (Hz : length (fresh_items (patientData w) importedData) = 0) by lia.
            apply nil_length_inv in Hz. rewrite Hz in Hf. inversion Hf.
          * rewrite map_app. apply elem_of_app. left.
            rewrite merged_record_numbers by (rewrite Hid, Hs; reflexivity).
            rewrite Hs. change (map noKib ?l) with (noKib <$> l).
            now apply list_elem_of_fmap_2. }
    unfold fresh_items. apply length_zero_iff_nil, filter_none_length.
    intros d Hd. apply bool_decide_eq_false. intros Hn. apply Hn. now apply Hknown. }
  split; [exact Hfresh |].
  rewrite (handleFileImport_eq addPatientToDB w1 importedData), Hfresh. simpl.
  rewrite (since_app w1 _ [Notify "Semua data sudah ada di database."]) by reflexivity.
  now repeat split.
Qed.

End HandlerProperties.

Lemma create_takes_server_identity_witness :
  patientData (handleSaveForm obliging_update counting_store agus
                 (start_world 7 [budi; siti] None)).2
  = [with_id agus "row-7"; budi; siti]
  /\ patientData (handleSaveForm obliging_update mute_store agus
                    (start_world 7 [budi; siti] None)).2
     = [budi; siti].
Proof.
  split.
  - apply (create_takes_server_identity obliging_update counting_store
             (start_world 7 [budi; siti] None) agus). reflexivity.
  - apply (create_takes_server_identity obliging_update mute_store
             (start_world 7 [budi; siti] None) agus). reflexivity.
Defined.

Lemma update_keeps_ids_witness :
  map id (patientData (handleSaveForm obliging_update counting_store
                         (with_ket siti "Rawat Inap")
                         (start_world 0 [budi; siti] (Some siti))).2)
  = ["id-1"; "id-2"]
  /\ patientData (handleSaveForm obliging_update counting_store agus
                    (start_world 0 [budi; siti] (Some siti))).2
     = [budi; siti].
Proof.
  split.
  - apply (update_keeps_ids obliging_update counting_store
             (start_world 0 [budi; siti] (Some siti)) (with_ket siti "Rawat Inap")).
    exists siti. reflexivity.
  - apply (update_keeps_ids obliging_update counting_store
             (start_world 0 [budi; siti] (Some siti)) agus).
    + exists siti. reflexivity.
    + intros item Hin. apply list_elem_of_In in Hin. simpl in Hin.
      destruct Hin as [<-|[<-|[]]]; discriminate.
    + discriminate.
Defined.

Lemma import_keeps_collection_witness :
  since (start_world 0 [budi] None)
        (handleFileImport counting_store Rejected true (start_world 0 [budi] None)).2
  = [Alert "Gagal membaca file atau koneksi error."].
Proof.
  apply (import_keeps_collection counting_store (start_world 0 [budi] None) Rejected true).
  left. discriminate.
Defined.

Lemma import_again_submits_nothing_witness :
  let w0 := start_world 0 [budi] None in
  let w1 := (handleFileImport counting_store
               (Resolved (ArrayOf [siti; with_id budi EmptyString; agus])) true w0).2 in
  since w1 (handleFileImport counting_store
              (Resolved (ArrayOf [siti; with_id budi EmptyString; agus])) true w1).2
  = [Notify "Semua data sudah ada di database."].
Proof.
  apply (import_again_submits_nothing counting_store (start_world 0 [budi] None)
           [siti; with_id budi EmptyString; agus]).
  vm_compute. reflexivity.
Defined.

(** X18. Loading always ends with the loading flag down.  When the store
    answers, the collection becomes what the store returned, whatever it
    held before; when the store cannot be reached the collection stays as it
    was and the failure is shown.  A manual refresh ends with the success
    message on screen in both cases: after a failure it is put there right
    over the failure message. *)
Theorem refresh_reports_success {Remote : Type}
    (getPatientsFromDB : Remote -> outcome (list PatientRecord) * Remote)
    (s : App.State Remote) :
  let fetched := App.fetchData getPatientsFromDB s in
  let refreshed := App.handleManualRefresh getPatientsFromDB s in
  App.isLoading fetched = false
  /\ App.isLoading refreshed = false
  /\ App.patientData refreshed = App.patientData fetched
  /\ App.notification refreshed
     = Some "Data berhasil disinkronisasi dengan Google Sheet."
  /\ match (getPatientsFromDB (App.remote s)).1 with
     | Resolved dbData =>
         App.patientData fetched = dbData
         /\ App.notification fetched = App.notification s
         /\ App.shown refreshed
            = (App.shown s ++ ["Data berhasil disinkronisasi dengan Google Sheet."])%list
     | Rejected =>
         App.patientData fetched = App.patientData s
         /\ App.notification fetched
            = Some "Gagal terhubung ke Google Sheets. Cek koneksi internet."
         /\ App.shown refreshed
            = (App.shown s ++ ["Gagal terhubung ke Google Sheets. Cek koneksi internet.";
                               "Data berhasil disinkronisasi dengan Google Sheet."])%list
     end.
Proof.
  cbv zeta. unfold App.handleManualRefresh, App.fetchData.
  destruct (getPatientsFromDB (App.remote (App.setIsLoading true s))) as [[dbData|] r']
    eqn:E; simpl in E; rewrite E; simpl; repeat split.
  now rewrite <- app_assoc.
Qed.

Section Form.

Lemma handleChange_id_no name value prev :
  id (handleChange name value prev) = id prev
  /\ no (handleChange name value prev) = no prev.
Proof. split; reflexivity. Qed.

Lemma typed_id_no changes formData :
  id (typed changes formData) = id formData /\ no (typed changes formData) = no formData.
Proof.
  unfold typed. revert formData.
  induction changes as [|c changes IH]; intros formData; simpl; [now split |].
  destruct (IH (handleChange c.1 c.2 formData)) as [H1 H2].
  now rewrite H1, H2.
Qed.

Lemma field_handleChange name other value prev :
  field other (handleChange name value prev)
  = if decide (name = other) then value else field other prev.
Proof. destruct name, other; reflexivity. Qed.

Lemma typed_snoc changes name value formData :
  typed (changes ++ [(name, value)]) formData
  = handleChange name value (typed changes formData).
Proof. unfold typed. now rewrite fold_left_app. Qed.

End Form.

(** X19. In the form an input, once changed, reads back as typed, and no
    other input moves; the last of several changes to an input is the one
    that stays.  No series of changes touches the id or the sequence
    number.  On submit, a record that has an id keeps it, so that the edit
    of a stored record is saved under the id it was stored with; a record
    without one (a new record) gets the generated one, and likewise the
    sequence number is kept unless it is 0; every input is submitted as it
    stands in the form. *)
Theorem form_keeps_identity
    (changes : list (input * string)) (name other : input) (value : string)
    (formData : PatientRecord) (generated : string) (now : Z) :
  let after := typed (changes ++ [(name, value)]) formData in
  let saved := handleSubmit generated now after in
  field name after = value
  /\ (other <> name -> field other after = field other (typed changes formData))
  /\ (id after = id formData /\ no after = no formData)
  /\ (id formData <> EmptyString -> id saved = id formData)
  /\ (id formData = EmptyString -> id saved = generated)
  /\ (no saved = if (no formData =? 0)%Z then now else no formData)
  /\ (forall n, field n saved = field n after).
Proof.
  cbv zeta. rewrite typed_snoc.
  destruct (typed_id_no changes formData) as [Hid Hno].
  split; [| split; [| split; [| split; [| split; [| split]]]]].
  - rewrite field_handleChange. now rewrite decide_True.
  - intros Hne. rewrite field_handleChange. now rewrite decide_False by congruence.
  - split; simpl; assumption.
  - intros Hne. unfold handleSubmit. simpl. rewrite Hid.
    apply truthy_true in Hne. now rewrite Hne.
  - intros He. unfold handleSubmit. simpl. rewrite Hid, He. reflexivity.
  - unfold handleSubmit. simpl. now rewrite Hno.
  - intros n. destruct n; reflexivity.
Qed.

Lemma form_keeps_identity_witness :
  id (handleSubmit "k3x9q" 1700000000000
        (typed [(in_ket, "Dirujuk"); (in_ket, "Rawat Inap")] siti)) = "id-2"
  /\ id (handleSubmit "k3x9q" 1700000000000
           (typed [(in_namaPasien, "Agus"); (in_noKib, "RM-9")] (emptyRecord "2024-01-09")))
     = "k3x9q".
Proof.
  split.
  - apply (form_keeps_identity [(in_ket, "Dirujuk")] in_ket in_ket "Rawat Inap" siti).
    discriminate.
  - apply (form_keeps_identity [(in_namaPasien, "Agus")] in_noKib in_noKib "RM-9"
             (emptyRecord "2024-01-09")).
    reflexivity.
Defined.

Lemma search_none {Cell : Type} (as_string : Cell -> string) (rows : list (list Cell)) (i : nat) (target : string) :
  Script.search as_string rows i target = None
  <-> length (List.filter (fun r => (Script.first_cell as_string r =? target)%string) rows) = 0.
Proof.
  revert i; induction rows as [|r rows IH]; intros i; simpl; [tauto |].
  destruct (Script.first_cell as_string r =? target)%string; simpl.
  - split; [discriminate | lia].
  - apply IH.
Qed.

Lemma search_some {Cell : Type} (as_string : Cell -> string) (rows : list (list Cell)) (i k : nat) (target : string) :
  Script.search as_string rows i target = Some k ->
  exists j r,
    k = i + j /\ rows !! j = Some r /\ Script.first_cell as_string r = target
    /\ length (List.filter (fun r => (Script.first_cell as_string r =? target)%string) (take j rows)) = 0
    /\ length (List.filter (fun r => (Script.first_cell as_string r =? target)%string) (delete j rows))
       + 1
       = length (List.filter (fun r => (Script.first_cell as_string r =? target)%string) rows).
Proof.
  revert i k; induction rows as [|r rows IH]; intros i k; simpl; [discriminate |].
  destruct (Script.first_cell as_string r =? target)%string eqn:E.
  - intros [= <-]. exists 0, r. simpl.
    apply String.eqb_eq in E. repeat split; try assumption; lia.
  - intros H. apply IH in H as [j [r' [-> [Hj [Hr [Hbefore Hcount]]]]]].
    exists (S j), r'. simpl. rewrite ?E. repeat split; try assumption; lia.
Qed.

Lemma find_row_some {Cell : Type} (as_string : Cell -> string) (sheet : list (list Cell)) (target : string) (i : nat) :
  Script.find_row as_string sheet target = Some i ->
  1 <= i < length sheet
  /\ (exists r, sheet !! i = Some r /\ Script.first_cell as_string r = target)
  /\ rows_with_id as_string (take i sheet) target = 0
  /\ rows_with_id as_string (delete i sheet) target + 1 = rows_with_id as_string sheet target.
Proof.
  unfold Script.find_row, rows_with_id. intros H.
  apply search_some in H as [j [r [-> [Hj [Hr [Hbefore Hcount]]]]]].
  destruct sheet as [|h rows]; [now rewrite drop_nil in Hj |].
  simpl in *. rewrite drop_0 in *.
  split.
  - apply lookup_lt_Some in Hj. lia.
  - split; [exists r; now split |]. split; assumption.
Qed.

(** X20. An update looks for the first data row whose first cell reads as
    the record's id, never at the header row.  When there is none the sheet
    is left as it is and the answer is a warning.  Otherwise the answer is
    a success and that one row is rewritten: its first sixteen cells are
    the record's, with the sequence number kept when the record's is 0, and
    what the row held beyond them (the creation time) stays; every other
    row, and the number of rows, stay as they were. *)
Theorem script_update_rewrites_one_row {Cell : Type}
    (text : string -> Cell) (number : Z -> Cell) (blank : Cell)
    (as_string : Cell -> string)
    (sheet : list (list Cell)) (data : PatientRecord) :
  let answer := Script.doPost text number blank as_string (Script.Update data) sheet in
  (rows_with_id as_string sheet (id data) = 0 -> answer = (Script.Warning, sheet))
  /\ (0 < rows_with_id as_string sheet (id data) ->
      exists i old,
        1 <= i < length sheet
        /\ sheet !! i = Some old
        /\ Script.first_cell as_string old = id data
        /\ rows_with_id as_string (take i sheet) (id data) = 0
        /\ answer.1 = Script.Success
        /\ length answer.2 = length sheet
        /\ (forall j, j <> i -> answer.2 !! j = sheet !! j)
        /\ (exists row, answer.2 !! i = Some row
              /\ take 16 row
                 = Script.cells text data
                     (if (no data =? 0)%Z then default blank (old !! 1)
                      else number (no data))
              /\ drop 16 row = drop 16 old)).
Proof.
  cbv zeta. unfold Script.doPost.
  destruct (Script.find_row as_string sheet (id data)) as [i|] eqn:Hf.
  - apply find_row_some in Hf as [Hi [[old [Hold Hc]] [Hbefore Hcount]]].
    split; [intros H0; lia |]. intros _.
    exists i, old. rewrite Hold. simpl.
    repeat split; try assumption; try lia.
    + apply length_insert.
    + intros j Hj. now apply list_lookup_insert_ne.
    + eexists. split; [apply list_lookup_insert_eq; lia |].
      split; [reflexivity |].
      reflexivity.
  - split; [reflexivity |]. intros Hpos.
    unfold Script.find_row in Hf. apply search_none in Hf.
    unfold rows_with_id in Hpos. lia.
Qed.

(** X21. A delete takes out the first data row whose first cell reads as
    the id, and only that one: the header and the rows before it stay in
    place, the rows after it move up by one, and the number of data rows
    that read as the id goes down by exactly one, so that a second row with
    the same id is still there.  When no data row reads as the id the sheet
    is left as it is.  The answer is a success either way. *)
Theorem script_delete_removes_one_row {Cell : Type}
    (text : string -> Cell) (number : Z -> Cell) (blank : Cell)
    (as_string : Cell -> string)
    (sheet : list (list Cell)) (target : string) :
  let answer := Script.doPost text number blank as_string (Script.Delete target) sheet in
  answer.1 = Script.Success
  /\ answer.2 !! 0 = sheet !! 0
  /\ rows_with_id as_string answer.2 target = rows_with_id as_string sheet target - 1
  /\ (rows_with_id as_string sheet target = 0 -> answer.2 = sheet)
  /\ (0 < rows_with_id as_string sheet target ->
      exists i,
        1 <= i < length sheet
        /\ rows_with_id as_string (take i sheet) target = 0
        /\ length answer.2 + 1 = length sheet
        /\ (forall j, j < i -> answer.2 !! j = sheet !! j)
        /\ (forall j, i <= j -> answer.2 !! j = sheet !! S j)).
Proof.
  cbv zeta. unfold Script.doPost.
  destruct (Script.find_row as_string sheet target) as [i|] eqn:Hf; simpl.
  - apply find_row_some in Hf as [Hi [[old [Hold Hc]] [Hbefore Hcount]]].
    split; [reflexivity |].
    split; [apply list_lookup_delete_lt; lia |].
    split; [lia |].
    split; [intros H0; lia |]. intros _.
    exists i. repeat split; try assumption; try lia.
    + rewrite length_delete by eauto. lia.
    + intros j Hj. now apply list_lookup_delete_lt.
    + intros j Hj. now apply list_lookup_delete_ge.
  - unfold Script.find_row in Hf. apply search_none in Hf.
    unfold rows_with_id.
    split; [reflexivity |]. split; [reflexivity |]. split; [lia |].
    split; [reflexivity |]. intros Hpos. lia.
Qed.

(** X22. A record created in a sheet that has its header row is found
    again, provided the sheet gives its id back as it was written: an update
    with that id succeeds, and when the id was new to the sheet a delete
    with it gives the sheet back as it was before the creation.  In a sheet
    without any row the created record takes the place of the header, and
    neither an update nor a delete finds it: the update is answered with a
    warning and the delete leaves the row where it is. *)
Theorem script_create_round_trip {Cell : Type}
    (text : string -> Cell) (number : Z -> Cell) (blank : Cell)
    (as_string : Cell -> string)
    (sheet : list (list Cell)) (data : PatientRecord) (createdAt : Cell) :
  let post := Script.doPost text number blank as_string in
  let created := (post (Script.Create data createdAt) sheet).2 in
  (post (Script.Create data createdAt) sheet).1 = Script.SuccessWithId (id data)
  /\ length created = S (length sheet)
  /\ (as_string (text (id data)) = id data -> sheet <> [] ->
      (post (Script.Update data) created).1 = Script.Success
      /\ (rows_with_id as_string sheet (id data) = 0 ->
          post (Script.Delete (id data)) created = (Script.Success, sheet)))
  /\ (sheet = [] ->
      post (Script.Update data) created = (Script.Warning, created)
      /\ post (Script.Delete (id data)) created = (Script.Success, created)).
Proof.
  cbv zeta.
  change ((Script.doPost text number blank as_string (Script.Create data createdAt) sheet).2)
    with (sheet ++ [Script.cells text data
                      (number (if (no data =? 0)%Z then 0%Z else no data)) ++ [createdAt]])%list.
  change ((Script.doPost text number blank as_string (Script.Create data createdAt) sheet).1)
    with (Script.SuccessWithId (id data)).
  set (row := (Script.cells text data
                 (number (if (no data =? 0)%Z then 0%Z else no data)) ++ [createdAt])%list).
  assert (Hrow : as_string (text (id data)) = id data ->
                 Script.first_cell as_string row = id data) by (intros H; exact H).
  clearbody row.
  split; [reflexivity |]. split; [rewrite length_app; simpl; lia |]. split.
  - intros Hback Hne. specialize (Hrow Hback).
    destruct sheet as [|h rows]; [contradiction |].
    assert (Hfound : forall rs i,
              exists k, Script.search as_string (rs ++ [row]) i (id data) = Some k
                        /\ (length (List.filter
                                      (fun r => (Script.first_cell as_string r =? id data)%string)
                                      rs) = 0 -> k = i + length rs)).
    { induction rs as [|r rs IH]; intros i; simpl.
      - rewrite Hrow, String.eqb_refl. exists i. split; [reflexivity | lia].
      - destruct (Script.first_cell as_string r =? id data)%string; simpl.
        + exists i. split; [reflexivity | lia].
        + destruct (IH (S i)) as [k [Hk Hlen]]. exists k. split; [exact Hk |].
          intros H0. rewrite (Hlen H0). lia. }
    destruct (Hfound rows 1) as [k [Hk Hlen]].
    unfold Script.doPost, Script.find_row. simpl. rewrite drop_0, Hk. simpl.
    split; [reflexivity |]. unfold rows_with_id. simpl. rewrite drop_0.
    intros H0. rewrite (Hlen H0). f_equal. simpl. f_equal.
    clear. induction rows as [|r rows IH]; simpl; [reflexivity | now rewrite IH].
  - intros ->. split; reflexivity.
Qed.

Lemma script_update_rewrites_one_row_witness :
  (plain_post (Script.Update (with_ket siti "Rawat Inap"))
     [header; Script.cells (fun s => s) budi "1" ++ ["t1"];
      Script.cells (fun s => s) siti "2" ++ ["t2"]]%list).1
  = Script.Success
  /\ plain_post (Script.Update agus)
       [header; Script.cells (fun s => s) budi "1" ++ ["t1"]]%list
     = (Script.Warning, [header; Script.cells (fun s => s) budi "1" ++ ["t1"]]%list).
Proof.
  split.
  - destruct (script_update_rewrites_one_row (fun s => s) plain_number EmptyString
                (fun s => s)
                [header; Script.cells (fun s => s) budi "1" ++ ["t1"];
                 Script.cells (fun s => s) siti "2" ++ ["t2"]]%list
                (with_ket siti "Rawat Inap")) as [_ H].
    destruct H as [i [old [_ [_ [_ [_ [H _]]]]]]]; [vm_compute; lia | exact H].
  - apply (script_update_rewrites_one_row (fun s => s) plain_number EmptyString
             (fun s => s) [header; Script.cells (fun s => s) budi "1" ++ ["t1"]]%list agus).
    reflexivity.
Defined.

Lemma script_delete_removes_one_row_witness :
  (plain_post (Script.Delete "id-1")
     [header; Script.cells (fun s => s) budi "1" ++ ["t1"];
      Script.cells (fun s => s) budi "1" ++ ["t2"]]%list).2
  = [header; Script.cells (fun s => s) budi "1" ++ ["t2"]]%list
  /\ (plain_post (Script.Delete "id-7")
        [header; Script.cells (fun s => s) budi "1" ++ ["t1"]]%list).2
     = [header; Script.cells (fun s => s) budi "1" ++ ["t1"]]%list.
Proof.
  split; [reflexivity |].
  apply (script_delete_removes_one_row (fun s => s) plain_number EmptyString (fun s => s)
           [header; Script.cells (fun s => s) budi "1" ++ ["t1"]]%list "id-7").
  reflexivity.
Defined.

Lemma script_create_round_trip_witness :
  plain_post (Script.Delete "id-2")
    (plain_post (Script.Create siti "t2")
       [header; Script.cells (fun s => s) budi "1" ++ ["t1"]]%list).2
  = (Script.Success, [header; Script.cells (fun s => s) budi "1" ++ ["t1"]]%list)
  /\ plain_post (Script.Update siti) (plain_post (Script.Create siti "t2") []).2
     = (Script.Warning, (plain_post (Script.Create siti "t2") []).2).
Proof.
  split.
  - apply (script_create_round_trip (fun s => s) plain_number EmptyString (fun s => s)
             [header; Script.cells (fun s => s) budi "1" ++ ["t1"]]%list siti "t2");
      [reflexivity | discriminate | reflexivity].
  - apply (script_create_round_trip (fun s => s) plain_number EmptyString (fun s => s)
             [] siti "t2"). reflexivity.
Defined.
